(** * Verification of the video frame limiter (src/video_frame_limit.py)

    Shallow embedding of [_safe_getattr], [_get_model_info] and
    [OliVideoFrameLimit.execute].  Python objects are modelled by an explicit
    finite description of their attributes; exceptions by a small error monad.
    Python floats ([fps], [duration], [safety_margin] and every value derived
    from them) are modelled exactly as rationals [Q]; floating-point rounding
    is not modelled. *)

From Stdlib Require Import ZArith QArith Qround List String Ascii Bool Lia Lqa.
Import ListNotations.
Open Scope string_scope.
Open Scope Z_scope.

(** ** Exceptions and the error monad *)

Inductive exn : Type :=
| AttributeError
| ZeroDivisionError
| RuntimeError.

Inductive res (A : Type) : Type :=
| Ok (a : A)
| Raise (e : exn).
Arguments Ok {A} a.
Arguments Raise {A} e.

Definition bind {A B : Type} (m : res A) (k : A -> res B) : res B :=
  match m with
  | Ok a => k a
  | Raise e => Raise e
  end.

Notation "x <- m ;; k" := (bind m (fun x => k))
  (at level 61, m at next level, right associativity).

(** ** Python values and objects

    An object has an identity, a class name ([type(obj).__name__]), a list of
    named attribute slots, the outcome of its truth test ([bool(obj)]) and the
    outcome of [sum(p.numel() for p in obj.parameters())] ([None] when that
    expression raises). *)

Inductive pyobj : Type :=
| PObj (oid : nat) (tyname : string) (slots : list (string * slot))
       (truth : res bool) (params : option (list Z))
with slot : Type :=
| AInst (v : pyval)          (* entry of the instance [__dict__] *)
| AProp (r : res pyval)      (* class-level property: result of its getter *)
| AClassVal (v : pyval)      (* non-callable class attribute *)
| AMethod                    (* callable class attribute (a method) *)
| ADyn (r : res pyval)       (* only reachable through [__getattr__] *)
with pyval : Type :=
| VNone
| VBool (b : bool)
| VInt (z : Z)
| VStr (s : string)
| VObj (o : pyobj)
| VOther.                    (* any other value, e.g. a bound method *)

Definition oid (o : pyobj) : nat := let '(PObj i _ _ _ _) := o in i.
Definition tyname (o : pyobj) : string := let '(PObj _ n _ _ _) := o in n.
Definition slots (o : pyobj) : list (string * slot) :=
  let '(PObj _ _ s _ _) := o in s.
Definition truth (o : pyobj) : res bool := let '(PObj _ _ _ t _) := o in t.
Definition params (o : pyobj) : option (list Z) :=
  let '(PObj _ _ _ _ p) := o in p.

Fixpoint lookup_slot (a : string) (l : list (string * slot)) : option slot :=
  match l with
  | [] => None
  | (b, s) :: l' => if String.eqb a b then Some s else lookup_slot a l'
  end.

(** [type(v).__name__] *)
Definition type_name (v : pyval) : string :=
  match v with
  | VNone => "NoneType"
  | VBool _ => "bool"
  | VInt _ => "int"
  | VStr _ => "str"
  | VObj o => tyname o
  | VOther => "object"
  end.

(** [v is w] *)
Definition py_is (v w : pyval) : bool :=
  match v, w with
  | VNone, VNone => true
  | VObj o1, VObj o2 => Nat.eqb (oid o1) (oid o2)
  | _, _ => false
  end.

Definition is_none (v : pyval) : bool :=
  match v with VNone => true | _ => false end.

(** [bool(v)], which may raise (e.g. a tensor with several elements). *)
Definition py_truth (v : pyval) : res bool :=
  match v with
  | VNone => Ok false
  | VBool b => Ok b
  | VInt z => Ok (negb (Z.eqb z 0))
  | VStr s => Ok (negb (String.eqb s ""))
  | VObj o => truth o
  | VOther => Ok true
  end.

(** [getattr(obj, attr, None)]: an [AttributeError] gives the default, any
    other exception propagates. *)
Definition py_getattr (v : pyval) (a : string) : res pyval :=
  match v with
  | VObj o =>
      match lookup_slot a (slots o) with
      | Some (AInst w) => Ok w
      | Some (AProp (Ok w)) => Ok w
      | Some (AProp (Raise AttributeError)) => Ok VNone
      | Some (AProp (Raise e)) => Raise e
      | Some (AClassVal w) => Ok w
      | Some AMethod => Ok VOther
      | Some (ADyn (Ok w)) => Ok w
      | Some (ADyn (Raise AttributeError)) => Ok VNone
      | Some (ADyn (Raise e)) => Raise e
      | None => Ok VNone
      end
  | _ => Ok VNone
  end.

(** [_safe_getattr(obj, attr)]: instance [__dict__], then class-level
    properties (exceptions swallowed) and non-callable class attributes;
    [__getattr__] is never run, so it never raises. *)
Definition _safe_getattr (v : pyval) (a : string) : pyval :=
  match v with
  | VObj o =>
      match lookup_slot a (slots o) with
      | Some (AInst w) => w
      | Some (AProp (Ok w)) => w
      | Some (AProp (Raise _)) => VNone
      | Some (AClassVal w) => w
      | Some AMethod => VNone
      | Some (ADyn _) => VNone
      | None => VNone
      end
  | _ => VNone
  end.

(** ** [_get_model_info] *)

Fixpoint fold_res {A B : Type} (f : A -> B -> res A) (acc : A) (l : list B)
  : res A :=
  match l with
  | [] => Ok acc
  | x :: l' => acc' <- f acc x ;; fold_res f acc' l'
  end.

(** [for accessor in ("model", "diffusion_model"): sub = getattr(m, accessor, None);
     if sub is not None: m = sub] *)
Definition unwrap_step (m : pyval) (accessor : string) : res pyval :=
  sub <- py_getattr m accessor ;;
  Ok (if is_none sub then m else sub).

Definition unwrap (model : pyval) : res pyval :=
  fold_res unwrap_step model ["model"; "diffusion_model"].

Definition SEARCH_ATTRS : list string :=
  ["diffusion_model"; "transformer"; "model"; "net"; "backbone"].

Definition search_step (m : pyval) (search : list pyval) (attr : string)
  : res (list pyval) :=
  sub <- py_getattr m attr ;;
  Ok (if negb (is_none sub) && negb (py_is sub m) then (search ++ [sub])%list
      else search).

Definition build_search (m : pyval) : res (list pyval) :=
  fold_res (search_step m) [m] SEARCH_ATTRS.

Definition DIM_ATTRS : list string :=
  ["hidden_size"; "dim"; "embed_dim"; "hidden_dim";
   "d_model"; "inner_dim"; "width"; "model_dim"].

(** A Python dict with string keys and int values, in insertion order:
    assigning an existing key keeps its position. *)
Definition found_dict := list (string * Z).

Fixpoint dict_set (k : string) (v : Z) (d : found_dict) : found_dict :=
  match d with
  | [] => [(k, v)]
  | (k', v') :: d' =>
      if String.eqb k k' then (k', v) :: d' else (k', v') :: dict_set k v d'
  end.

(** The integer seen by [isinstance(val, int)] ([bool] is a subclass of
    [int]). *)
Definition py_int (v : pyval) : option Z :=
  match v with
  | VInt z => Some z
  | VBool b => Some (if b then 1 else 0)
  | _ => None
  end.

(** [isinstance(val, int) and 64 <= val <= 32768] *)
Definition dim_hit (v : pyval) : option Z :=
  match py_int v with
  | Some z => if (64 <=? z) && (z <=? 32768) then Some z else None
  | None => None
  end.

(** [val = _safe_getattr(obj, attr); if ...: found[f"{prefix}.{attr}"] = val] *)
Definition scan_attr (prefix : string) (obj : pyval) (f : found_dict)
  (attr : string) : found_dict :=
  match dim_hit (_safe_getattr obj attr) with
  | Some z => dict_set (prefix ++ "." ++ attr) z f
  | None => f
  end.

(** [for attr in DIM_ATTRS: ...] *)
Definition scan_attrs (prefix : string) (obj : pyval) (found : found_dict)
  : found_dict :=
  fold_left (scan_attr prefix obj) DIM_ATTRS found.

Definition CFG_ATTRS : list string := ["config"; "model_config"].

(** [cfg = _safe_getattr(obj, cfg_attr); if cfg: ...] *)
Definition scan_cfg (obj_name : string) (obj : pyval) (found : found_dict)
  (cfg_attr : string) : res found_dict :=
  let cfg := _safe_getattr obj cfg_attr in
  b <- py_truth cfg ;;
  Ok (if b then scan_attrs (obj_name ++ "." ++ cfg_attr) cfg found else found).

(** One iteration of [for obj in search]. *)
Definition scan_obj (found : found_dict) (obj : pyval) : res found_dict :=
  let obj_name := type_name obj in
  fold_res (scan_cfg obj_name obj) (scan_attrs obj_name obj found) CFG_ATTRS.

Definition scan_search (search : list pyval) : res found_dict :=
  fold_res scan_obj [] search.

Inductive debug_line : Type :=
| DLHit (key : string) (v : Z)      (* f"  {k} = {v}" *)
| DLEstimate (v : Z).               (* f"  param count estimate: {v}" *)

Definition STANDARDS : list Z :=
  [256; 512; 768; 1024; 1280; 1536; 2048; 3072; 4096; 5120; 8192].

(** [min(xs, key=lambda x: abs(x - est))]: the first element of least key. *)
Fixpoint nearest_from (est best : Z) (xs : list Z) : Z :=
  match xs with
  | [] => best
  | x :: xs' =>
      if Z.abs (x - est) <? Z.abs (best - est) then nearest_from est x xs'
      else nearest_from est best xs'
  end.

Definition nearest_standard (est : Z) : Z :=
  match STANDARDS with
  | [] => 0
  | x :: xs => nearest_from est x xs
  end.

(** [n = sum(p.numel() for p in m.parameters())] *)
Definition param_count (m : pyval) : option Z :=
  match m with
  | VObj o => option_map (fold_right Z.add 0) (params o)
  | _ => None
  end.

Definition model_info := (option string * option Z * list debug_line)%type.

(** The parameter-count fallback inside [try ... except Exception].  For
    [n >= 0], [int((n / (12 * 28)) ** 0.5)] is [Z.sqrt (n / 336)]; a negative
    [n] yields a complex number, on which [int] raises. *)
Definition param_fallback (model_name : string) (m : pyval) : model_info :=
  match param_count m with
  | Some n =>
      if 0 <=? n then
        let est := Z.sqrt (n / (12 * 28)) in
        let hidden_dim := nearest_standard est in
        (Some model_name, Some hidden_dim, [DLEstimate hidden_dim])
      else (Some model_name, None, [])
  | None => (Some model_name, None, [])
  end.

Definition _get_model_info (model : pyval) : res model_info :=
  if is_none model then Ok (None, None, []) else
  m <- unwrap model ;;
  let model_name := type_name m in
  search <- build_search m ;;
  found <- scan_search search ;;
  let debug_lines := map (fun kv => DLHit (fst kv) (snd kv)) found in
  match found with
  | (_, hidden_dim) :: _ => Ok (Some model_name, Some hidden_dim, debug_lines)
  | [] => Ok (param_fallback model_name m)
  end.

(** ** [OliVideoFrameLimit.execute] *)

Definition TENSOR_COPIES : Z := 5.
Definition TEMPORAL_COMPRESSION : Z := 4.
(** Fallback width used when no hidden dimension is detected. *)
Definition FALLBACK_HIDDEN_DIM : Z := 1536.

(** Python's [round] on a float: round half to even. *)
Definition py_round (x : Q) : Z :=
  let f := Qfloor x in
  let r := (x - inject_Z f)%Q in
  if Qlt_le_dec r (1 # 2) then f
  else if Qeq_bool r (1 # 2) then (if Z.even f then f else f + 1)
  else f + 1.

(** Python's [int] on a float: truncation toward zero. *)
Definition py_trunc (x : Q) : Z :=
  if Qle_bool 0 x then Qfloor x else - Qfloor (- x)%Q.

(** Python's [/] on floats: division by zero raises. *)
Definition py_div (x y : Q) : res Q :=
  if Qeq_bool y 0 then Raise ZeroDivisionError else Ok (x / y)%Q.

(** [max(1, round(duration * fps) + 1)] *)
Definition requested_frames (duration fps : Q) : Z :=
  Z.max 1 (py_round (duration * fps)%Q + 1).

(** [(width // 8) * (height // 8)] *)
Definition spatial_tokens (width height : Z) : Z := (width / 8) * (height / 8).

(** [TENSOR_COPIES * spatial_tokens * hidden_dim * 2]: the same expression
    is [bytes_per_latent_frame] and [bytes_per_frame] in the source. *)
Definition bytes_per_frame (st hidden_dim : Z) : Z :=
  TENSOR_COPIES * st * hidden_dim * 2.

(** [max(1, int(vram_budget / b))] *)
Definition frames_in_budget (vram_budget : Q) (b : Z) : res Z :=
  q <- py_div vram_budget (inject_Z b) ;;
  Ok (Z.max 1 (py_trunc q)).

(** Branch [if dim_detected]: budget counted in latent frames. *)
Definition max_physical_detected (vram_budget : Q) (b : Z) : res Z :=
  max_latent_frames <- frames_in_budget vram_budget b ;;
  Ok ((max_latent_frames - 1) * TEMPORAL_COMPRESSION + 1).

(** Branch [else]: no temporal compression. *)
Definition max_physical_generic (vram_budget : Q) (b : Z) : res Z :=
  frames_in_budget vram_budget b.

Definition snap (f : Z) : Z :=
  let n := (f - 1) / TEMPORAL_COMPRESSION in
  Z.max 1 (n * TEMPORAL_COMPRESSION + 1).

(** The text shown in the UI, with its numbers kept structured. *)
Inductive ui_text : Type :=
| UiNoCuda                                   (* "CUDA not available ..." *)
| UiInfo (vram_gb : Q) (model_label : string) (dim : Z)
         (requested : Z) (capped : Z) (capped_duration : Q).

Record node_result : Type := mkResult {
  r_width : Z;
  r_height : Z;
  r_frames : Z;
  r_fps : Q;
  r_duration : Q;
  r_ui : ui_text
}.

(** [model_name or "connected"] *)
Definition label_of (model_name : option string) : string :=
  match model_name with
  | Some s => if String.eqb s "" then "connected" else s
  | None => "connected"
  end.

(** [execute(width, height, duration, fps, safety_margin, model)]; [cuda] is
    [None] when [torch.cuda.is_available()] is false and otherwise
    [Some total_memory] of device 0.  Float arithmetic is computed exactly
    in [Q]. *)
Definition execute (width height : Z) (duration fps safety_margin : Q)
  (model : pyval) (cuda : option Z) : res node_result :=
  let requested := requested_frames duration fps in
  match cuda with
  | None => Ok (mkResult width height requested fps duration UiNoCuda)
  | Some total_vram =>
      let vram_gb := (inject_Z total_vram / inject_Z (1024 ^ 3))%Q in
      let vram_budget := (inject_Z total_vram * safety_margin)%Q in
      info <- _get_model_info model ;;
      let '(model_name, hd, _) := info in
      let '(dim_detected, hidden_dim, model_label) :=
        match hd with
        | None => (false, FALLBACK_HIDDEN_DIM, "generic")
        | Some d => (true, d, label_of model_name)
        end in
      let st := spatial_tokens width height in
      let b := bytes_per_frame st hidden_dim in
      max_physical_frames <-
        (if dim_detected then max_physical_detected vram_budget b
         else max_physical_generic vram_budget b) ;;
      let actual_frames := snap (Z.min requested max_physical_frames) in
      actual_duration <- py_div (inject_Z (actual_frames - 1)) fps ;;
      Ok (mkResult width height actual_frames fps actual_duration
             (UiInfo vram_gb model_label hidden_dim requested actual_frames
                actual_duration))
  end.

(** Validity of a request in the sense of the specification. *)
Definition valid_request (width height : Z) (duration fps safety_margin : Q)
  (cuda : option Z) : Prop :=
  8 <= width /\ 8 <= height /\ (0 < fps)%Q /\ (0 < duration)%Q /\
  (0 < safety_margin)%Q /\ (safety_margin <= 1)%Q /\
  match cuda with Some c => 0 <= c | None => True end.

(** Sample handles. *)
Definition wan_model : pyval :=
  VObj (PObj 1 "WanModel" [("hidden_size", AInst (VInt 1536))] (Ok true) None).

Definition handle_of (inner : pyval) : pyval :=
  VObj (PObj 0 "ModelPatcher" [("model", AInst inner)] (Ok true) None).

(** A model exposing no width attribute, with 1.7e9 parameters. *)
Definition unet_model : pyval :=
  VObj (PObj 2 "UNetLike" [] (Ok true) (Some [1700000000])).

(** A model whose [config] names a width and whose [transformer] sub-module
    has its own direct [hidden_size]. *)
Definition dit_config : pyval :=
  VObj (PObj 3 "DiTConfig" [("hidden_size", AInst (VInt 2048))] (Ok true) None).

Definition dit_transformer : pyval :=
  VObj (PObj 4 "DiTTransformer" [("hidden_size", AInst (VInt 1536))]
        (Ok true) None).

Definition dit_model : pyval :=
  VObj (PObj 5 "DiTModel"
        [("config", AInst dit_config); ("transformer", AInst dit_transformer)]
        (Ok true) None).

(** A model with a direct [hidden_size], a [config] naming another width and
    a [transformer] sub-module whose config names yet another. *)
Definition wan_full : pyval :=
  VObj (PObj 7 "WanModel"
        [("hidden_size", AInst (VInt 1536)); ("config", AInst dit_config);
         ("transformer", AInst dit_model)]
        (Ok true) None).

(** A wrapper whose [model] property fails with a non-[AttributeError]. *)
Definition lazy_patcher : pyval :=
  VObj (PObj 6 "LazyPatcher" [("model", AProp (Raise RuntimeError))]
        (Ok true) None).

Definition GiB : Z := 2 ^ 30.

Ltac solve_valid :=
  unfold valid_request;
  repeat split;
  first [ lia | (vm_compute; reflexivity) | (vm_compute; intros; discriminate) ].

(** ** What introspection reads with plain [getattr]

    [wrap_reach root v]: [v] is [root] or is obtained from such a value by
    [getattr(v, a, None)] with [a] one of the unwrapping accessors. *)
Inductive wrap_reach (root : pyval) : pyval -> Prop :=
| wrap_root : wrap_reach root root
| wrap_step (v w : pyval) (a : string) :
    wrap_reach root v -> In a ["model"; "diffusion_model"] ->
    py_getattr v a = Ok w -> wrap_reach root w.

(** [obj] may enter the search list built from [m]: [m] itself or
    [getattr(m, attr, None)] for one of [SEARCH_ATTRS]. *)
Definition search_of (m obj : pyval) : Prop :=
  obj = m \/ exists a, In a SEARCH_ATTRS /\ py_getattr m a = Ok obj.

(** A model whose own truth test raises, whose [hidden_size] and [config]
    properties raise [RuntimeError], and with a direct [dim]. *)
Definition flaky_model : pyval :=
  VObj (PObj 13 "FlakyModel"
        [("hidden_size", AProp (Raise RuntimeError)); ("dim", AInst (VInt 2048));
         ("config", AProp (Raise RuntimeError))]
        (Raise RuntimeError) None).

(** A class name without a dot, as for every Python identifier. *)
Fixpoint no_dot (s : string) : bool :=
  match s with
  | EmptyString => true
  | String c s' => negb (Ascii.eqb c "."%char) && no_dot s'
  end.

(** Widths recorded in the dict are in range. *)
Definition dims_ok (d : found_dict) : Prop := Forall (fun kv => 64 <= snd kv) d.

(** [d] starts with the entry [(k0, v0)]. *)
Definition head_is (k0 : string) (v0 : Z) (d : found_dict) : Prop :=
  exists rest, d = (k0, v0) :: rest.

(** ** [model_name.py]: [_find_dim], [_count_params], [_get_model_details] *)

(** Attribute read that tells a missing attribute apart from one whose value
    is [None]: [Ok None] when the lookup ends in [AttributeError]. *)
Definition py_lookup (v : pyval) (a : string) : res (option pyval) :=
  match v with
  | VObj o =>
      match lookup_slot a (slots o) with
      | Some (AInst w) => Ok (Some w)
      | Some (AProp (Ok w)) => Ok (Some w)
      | Some (AProp (Raise AttributeError)) => Ok None
      | Some (AProp (Raise e)) => Raise e
      | Some (AClassVal w) => Ok (Some w)
      | Some AMethod => Ok (Some VOther)
      | Some (ADyn (Ok w)) => Ok (Some w)
      | Some (ADyn (Raise AttributeError)) => Ok None
      | Some (ADyn (Raise e)) => Raise e
      | None => Ok None
      end
  | _ => Ok None
  end.

(** [hasattr(obj, attr)] *)
Definition py_hasattr (v : pyval) (a : string) : res bool :=
  r <- py_lookup v a ;;
  Ok (match r with Some _ => true | None => false end).

(** [getattr(obj, attr, default)] *)
Definition py_getattr_d (v : pyval) (a : string) (dflt : pyval) : res pyval :=
  r <- py_lookup v a ;;
  Ok (match r with Some w => w | None => dflt end).

(** [getattr(o, attr, None)] then the range test of [_find_dim]. *)
Definition attr_dim (o : pyval) (attr : string) : res (option Z) :=
  val <- py_getattr o attr ;;
  Ok (dim_hit val).

(** A [for] loop that [return]s the first hit. *)
Fixpoint first_hit {X : Type} (f : X -> res (option Z)) (l : list X)
  : res (option Z) :=
  match l with
  | [] => Ok None
  | x :: l' =>
      r <- f x ;;
      match r with
      | Some z => Ok (Some z)
      | None => first_hit f l'
      end
  end.

(** [cfg = getattr(o, cfg_attr, None); if cfg: for attr in _DIM_ATTRS: ...] *)
Definition cfg_dim (o : pyval) (cfg_attr : string) : res (option Z) :=
  cfg <- py_getattr o cfg_attr ;;
  b <- py_truth cfg ;;
  if b then first_hit (attr_dim cfg) DIM_ATTRS else Ok None.

(** The body of [for o in search] in [_find_dim]. *)
Definition obj_dim (o : pyval) : res (option Z) :=
  r <- first_hit (attr_dim o) DIM_ATTRS ;;
  match r with
  | Some z => Ok (Some z)
  | None => first_hit (cfg_dim o) CFG_ATTRS
  end.

(** [_find_dim(obj)]: the search set is built as in [_get_model_info]. *)
Definition _find_dim (obj : pyval) : res (option Z) :=
  search <- build_search obj ;;
  first_hit obj_dim search.

(** The text of [_count_params]: which format is chosen for [n]; the digits
    printed by the float formatting are not modelled. *)
Inductive param_text : Type :=
| PBillions (n : Z)      (* f"{n / 1e9:.1f}B" *)
| PMillions (n : Z)      (* f"{n / 1e6:.0f}M" *)
| PPlain (n : Z).        (* str(n) *)

(** [_count_params(obj)]; [None] when the parameter sum raises. *)
Definition _count_params (obj : pyval) : option param_text :=
  match param_count obj with
  | Some n =>
      if 1000000000 <=? n then Some (PBillions n)
      else if 1000000 <=? n then Some (PMillions n)
      else Some (PPlain n)
  | None => None
  end.

(** [f"type:   {mt.name}"], or [f"type:   {mt}"] when reading [name] fails.
    The text itself is not modelled: [str] of [mt.name] and of [mt] are
    taken to succeed, so a run where the source raises there is one the
    model lets return. *)
Inductive type_text : Type :=
| TName (name : pyval)
| TValue (mt : pyval).

(** The display lines of [_get_model_details], kept structured. *)
Inductive detail_line : Type :=
| LDash                        (* "—" *)
| LClass (class_name : string) (* f"class:  {class_name}" *)
| LFormat (fmt : string)       (* f"format: {fmt}" *)
| LParams (p : param_text)     (* f"params: {p}" *)
| LType (t : type_text)        (* f"type:   ..." *)
| LDim (dim : Z).              (* f"dim:    {dim}" *)

(** [s1 in s2] for strings. *)
Fixpoint str_prefix (s1 s2 : string) : bool :=
  match s1, s2 with
  | EmptyString, _ => true
  | String c1 s1', String c2 s2' => Ascii.eqb c1 c2 && str_prefix s1' s2'
  | _, _ => false
  end.

Fixpoint str_contains (needle hay : string) : bool :=
  str_prefix needle hay ||
  match hay with
  | EmptyString => false
  | String _ hay' => str_contains needle hay'
  end.

(** [for accessor in ("model", "diffusion_model"): sub = getattr(inner,
    accessor, None); if sub is not None: inner = sub; break] *)
Fixpoint unwrap_once (inner : pyval) (accessors : list string) : res pyval :=
  match accessors with
  | [] => Ok inner
  | a :: rest =>
      sub <- py_getattr inner a ;;
      if is_none sub then unwrap_once inner rest else Ok sub
  end.

Definition params_lines (inner : pyval) : list detail_line :=
  match _count_params inner with
  | Some p => [LParams p]
  | None => []
  end.

(** The CLIP and VAE branches. *)
Definition wrapped_details (model : pyval) (sub_attr fmt : string)
  : res (list detail_line * string * Z) :=
  inner <- py_getattr_d model sub_attr model ;;
  let class_name := type_name inner in
  Ok ([LClass class_name; LFormat fmt] ++ params_lines inner, class_name, 0)%list.

Definition _get_model_details (model : pyval)
  : res (list detail_line * string * Z) :=
  if is_none model then Ok ([LDash], "", 0) else
  let outer_class := type_name model in
  is_clip <- (if String.eqb outer_class "CLIP" then Ok true
              else py_hasattr model "cond_stage_model") ;;
  if is_clip then wrapped_details model "cond_stage_model" "clip" else
  is_vae <- (if String.eqb outer_class "VAE" then Ok true
             else py_hasattr model "first_stage_model") ;;
  if is_vae then wrapped_details model "first_stage_model" "vae" else
  let fmt := if str_contains "GGUF" outer_class then "gguf" else "standard" in
  inner <- unwrap_once model ["model"; "diffusion_model"] ;;
  let class_name := type_name inner in
  mt <- py_getattr inner "model_type" ;;
  let type_lines :=
    if is_none mt then []
    else match py_lookup mt "name" with
         | Ok (Some name) => [LType (TName name)]
         | _ => [LType (TValue mt)]
         end in
  found <- _find_dim inner ;;
  let dim := match found with
             | Some z => if Z.eqb z 0 then 0 else z
             | None => 0
             end in
  let dim_lines := if Z.eqb dim 0 then [] else [LDim dim] in
  Ok ([LClass class_name] ++ type_lines ++ dim_lines ++ params_lines inner
        ++ [LFormat fmt], class_name, dim)%list.

(** [OliModelInfo.execute(model)]: the UI lines and [(class_name, dim)]. *)
Definition model_info_execute (model : pyval)
  : res (list detail_line * (string * Z)) :=
  r <- _get_model_details model ;;
  let '(lines, class_name, dim) := r in
  Ok (lines, (class_name, dim)).

(** Sample handles for the other node types. *)
Definition clip_encoder : pyval :=
  VObj (PObj 9 "SDClipModel" [] (Ok true) (Some [123000000])).

Definition clip_handle : pyval :=
  VObj (PObj 8 "CLIP" [("cond_stage_model", AInst clip_encoder)] (Ok true) None).

Definition vae_inner : pyval :=
  VObj (PObj 11 "AutoencoderKL" [] (Ok true) (Some [83000000])).

Definition vae_handle : pyval :=
  VObj (PObj 10 "VAE" [("first_stage_model", AInst vae_inner)] (Ok true) None).

Definition gguf_handle : pyval :=
  VObj (PObj 12 "GGUFModelPatcher" [("model", AInst wan_model)] (Ok true) None).

(** ** [nodes.py] and [prompt_line_pick.py]: picking a line *)

(** [text.split("\n")]: always at least one piece. *)
Fixpoint split_nl (s : string) : list string :=
  match s with
  | EmptyString => [""]
  | String c s' =>
      if Ascii.eqb c "010"%char then "" :: split_nl s'
      else match split_nl s' with
           | [] => [String c ""]
           | x :: rest => String c x :: rest
           end
  end.

(** [str.isspace] on an ASCII character: [\t\n\v\f\r], the separators
    [\x1c]-[\x1f] and the space. *)
Definition is_space (c : ascii) : bool :=
  let n := nat_of_ascii c in
  (Nat.leb 9 n && Nat.leb n 13) || (Nat.leb 28 n && Nat.leb n 32).

Fixpoint lstrip (s : string) : string :=
  match s with
  | EmptyString => EmptyString
  | String c s' => if is_space c then lstrip s' else s
  end.

Fixpoint rstrip (s : string) : string :=
  match s with
  | EmptyString => EmptyString
  | String c s' =>
      let r := rstrip s' in
      if String.eqb r "" && is_space c then "" else String c r
  end.

(** [str.strip()] *)
Definition py_strip (s : string) : string := rstrip (lstrip s).

(** Decimal digits of a non-negative [n], prepended to [acc]; [fuel] bounds
    the number of digits. *)
Fixpoint dec_digits (fuel : nat) (n : Z) (acc : string) : string :=
  match fuel with
  | O => acc
  | S f =>
      let acc' := String (ascii_of_nat (48 + Z.to_nat (n mod 10))) acc in
      if n <? 10 then acc' else dec_digits f (n / 10) acc'
  end.

(** [str(n)] for an [int]. *)
Definition py_str_int (n : Z) : string :=
  if n <? 0 then "-" ++ dec_digits (S (Z.to_nat (Z.log2 (- n)))) (- n) ""
  else dec_digits (S (Z.to_nat (Z.log2 n))) n "".

(** [lines = text.split("\n")] followed by the [remove_empty_lines] filter. *)
Definition clean_lines (remove_empty_lines : bool) (text : string)
  : list string :=
  let lines := split_nl text in
  if remove_empty_lines
  then map py_strip (filter (fun l => negb (String.eqb (py_strip l) "")) lines)
  else map py_strip lines.

Section PickLine.

(** [int(hashlib.sha256(key.encode()).hexdigest(), 16)] *)
Variable sha256_int : string -> Z.

(** [int(digest, 16) % len(lines)] *)
Definition pick_index (key : string) (lines : list string) : Z :=
  sha256_int key mod Z.of_nat (List.length lines).

(** [PromptLinePick.execute(text, seed, channel, remove_empty_lines)] *)
Definition prompt_line_pick (text : string) (seed channel : Z)
  (remove_empty_lines : bool) : string * Z :=
  let lines := clean_lines remove_empty_lines text in
  match lines with
  | [] => ("", 0)
  | _ =>
      let index := pick_index (py_str_int seed ++ ":" ++ py_str_int channel) lines in
      (nth (Z.to_nat index) lines "", index)
  end.

(** [f"{unique_id}"]: the hidden node id, [None] when absent. *)
Definition py_str_opt (unique_id : option string) : string :=
  match unique_id with Some s => s | None => "None" end.

(** [OliPromptLinePick.execute(prompt, seed, remove_empty_lines, unique_id)] *)
Definition oli_prompt_line_pick (prompt : string) (seed : Z)
  (remove_empty_lines : bool) (unique_id : option string) : string * string :=
  let lines := clean_lines remove_empty_lines prompt in
  match lines with
  | [] => ("", "")
  | _ =>
      let index := pick_index (py_str_int seed ++ ":" ++ py_str_opt unique_id) lines in
      (nth (Z.to_nat index) lines "", nth (Z.to_nat index) lines "")
  end.

End PickLine.

(** Sample prompt texts and a stand-in for the digest: any function of the
    key may be plugged in for [sha256_int]. *)
Definition three_lines : string := "x
y
z".

Definition padded_lines : string := "  a  

 b".

Definition gap_lines : string := "a

b".

Definition key_length (key : string) : Z := Z.of_nat (String.length key).

(** ** [oli_lora_loader.py]: [_check_compat] and [load_loras] *)

Definition LORA_SUFFIXES : list string :=
  [".lora_up.weight"; ".lora_down.weight"; ".alpha";
   ".lora_A.weight"; ".lora_B.weight"; ".diff"; ".diff_b"].

(** [k.endswith(sfx)] *)
Definition py_endswith (k sfx : string) : bool :=
  let n := String.length k in
  let m := String.length sfx in
  Nat.leb m n && String.eqb (substring (n - m) m k) sfx.

(** [k[: -m]] for [0 < m <= len(k)] *)
Definition drop_last (m : nat) (k : string) : string :=
  substring 0 (String.length k - m) k.

(** [for sfx in _LORA_SUFFIXES: if k.endswith(sfx): ...; break] *)
Fixpoint base_of (sfxs : list string) (k : string) : option string :=
  match sfxs with
  | [] => None
  | sfx :: rest =>
      if py_endswith k sfx then Some (drop_last (String.length sfx) k)
      else base_of rest k
  end.

(** [set.add] on a set kept as a duplicate-free list. *)
Definition set_add_str (x : string) (s : list string) : list string :=
  if existsb (String.eqb x) s then s else (s ++ [x])%list.

(** [base_keys = set(); for k in lora_keys: ...] *)
Definition base_keys (lora_keys : list string) : list string :=
  fold_left (fun acc k => match base_of LORA_SUFFIXES k with
                          | Some b => set_add_str b acc
                          | None => acc
                          end) lora_keys [].

(** [true] when no suffix of [l] ends with another one of [l]. *)
Definition suffix_free (l : list string) : bool :=
  forallb (fun s1 => forallb (fun s2 => negb (py_endswith s2 s1) || String.eqb s1 s2) l) l.

Inductive compat_reason : Type :=
| RNoModel                          (* "no model" *)
| RUnreadable                       (* "unreadable" *)
| REmpty                            (* "empty" *)
| RKeyMapError (e : exn)            (* f"key-map error: {e}" *)
| RNoWeightKeys                     (* "no weight keys found" *)
| RMatched (matches total : nat).   (* f"{matches}/{len(base_keys)} keys matched" *)

(** [_check_compat(model, lora_path)]: [model_present] is [model is not
    None], [lora_keys] the result of [_read_lora_keys(lora_path)] (which
    catches every exception), [model_map] the outcome of the [try] that
    builds the key map, as the list of its keys. *)
Definition _check_compat (model_present : bool) (lora_keys : option (list string))
  (model_map : res (list string)) : bool * compat_reason :=
  if negb model_present then (true, RNoModel) else
  match lora_keys with
  | None => (true, RUnreadable)
  | Some [] => (true, REmpty)
  | Some ks =>
      match model_map with
      | Raise e => (true, RKeyMapError e)
      | Ok mm =>
          let bks := base_keys ks in
          match bks with
          | [] => (true, RNoWeightKeys)
          | _ =>
              let matches :=
                List.length (filter (fun b => existsb (String.eqb b) mm) bks) in
              (Nat.ltb 0 matches, RMatched matches (List.length bks))
          end
      end
  end.

(** [str.upper()] on ASCII. *)
Definition ascii_upper (c : ascii) : ascii :=
  let n := nat_of_ascii c in
  if Nat.leb 97 n && Nat.leb n 122 then ascii_of_nat (n - 32) else c.

Fixpoint str_upper (s : string) : string :=
  match s with
  | EmptyString => EmptyString
  | String c s' => String (ascii_upper c) (str_upper s')
  end.

(** A keyword argument of [load_loras]: a lora row widget value, a dict
    whose entries [on], [lora], [strength], [strengthTwo] may be missing
    (outer [option]) and whose [lora] and [strengthTwo] may be [None]
    (inner [option]); or any other value. *)
Inductive kw_value : Type :=
| KwRow (on : option bool) (lora : option (option string))
        (strength : option Q) (strength_two : option (option Q))
| KwOther.

(** [compat[filename] = v] on a dict kept in insertion order. *)
Fixpoint compat_set (k : string) (v : option bool)
  (d : list (string * option bool)) : list (string * option bool) :=
  match d with
  | [] => [(k, v)]
  | (k', v') :: d' =>
      if String.eqb k k' then (k', v) :: d' else (k', v') :: compat_set k v d'
  end.

(** [compat.get(k)] on that dict. *)
Fixpoint compat_get (k : string) (d : list (string * option bool)) : option (option bool) :=
  match d with
  | [] => None
  | (k', v') :: d' => if String.eqb k k' then Some v' else compat_get k d'
  end.

Section LoadLoras.

(** The model and clip objects, and the ComfyUI services the node calls. *)
Variables M C : Type.
(** [LoraLoader().load_lora(model, clip, filename, sm, sc)] *)
Variable load_lora : M -> option C -> string -> Q -> Q -> M * option C.
(** [folder_paths.get_full_path("loras", filename)] *)
Variable full_path : string -> option string.
(** [_read_lora_keys(lora_path)] *)
Variable read_keys : string -> option (list string).
(** [comfy.lora.model_lora_keys_unet(model.model, model_map)] *)
Variable keymap_of : M -> res (list string).

Record loader_state : Type := mkLoader {
  ls_model : option M;
  ls_clip : option C;
  ls_compat : list (string * option bool);
  ls_stack : list (string * Q * Q)
}.

(** One entry of the incoming [lora_stack]. *)
Definition stack_step (st : loader_state) (e : string * Q * Q) : loader_state :=
  let '(filename, sm, sc) := e in
  if String.eqb filename "" || String.eqb filename "None" then st else
  match ls_model st with
  | Some m =>
      let '(m', c') := load_lora m (ls_clip st) filename sm sc in
      mkLoader (Some m') c' (ls_compat st) (ls_stack st)
  | None => st
  end.

(** One item of [kwargs.items()]. *)
Definition row_step (st : loader_state) (kv : string * kw_value) : loader_state :=
  let '(key, value) := kv in
  if negb (String.prefix "LORA_" (str_upper key)) then st else
  match value with
  | KwOther => st
  | KwRow (Some on) (Some lora) (Some sm) st2 =>
      let filename := match lora with Some f => f | None => "" end in
      if String.eqb filename "" || String.eqb filename "None" then st else
      if negb on then
        mkLoader (ls_model st) (ls_clip st)
                 (compat_set filename None (ls_compat st)) (ls_stack st)
      else
      let sc := match ls_clip st with
                | None => 0%Q
                | Some _ => match st2 with
                            | Some (Some x) => x
                            | _ => sm
                            end
                end in
      if Qeq_bool sm 0 && Qeq_bool sc 0 then st else
      match full_path filename with
      | None =>
          mkLoader (ls_model st) (ls_clip st)
                   (compat_set filename (Some false) (ls_compat st)) (ls_stack st)
      | Some path =>
          let '(compatible, _) :=
            _check_compat (match ls_model st with Some _ => true | None => false end)
              (read_keys path)
              (match ls_model st with Some m => keymap_of m | None => Ok [] end) in
          let compat' := compat_set filename (Some compatible) (ls_compat st) in
          if negb compatible then
            mkLoader (ls_model st) (ls_clip st) compat' (ls_stack st)
          else
          let stack' := (ls_stack st ++ [(filename, sm, sc)])%list in
          match ls_model st with
          | Some m =>
              let '(m', c') := load_lora m (ls_clip st) filename sm sc in
              mkLoader (Some m') c' compat' stack'
          | None => mkLoader None (ls_clip st) compat' stack'
          end
      end
  | KwRow _ _ _ _ => st
  end.

(** [load_loras(model, clip, lora_stack, **kwargs)]: the compat dict for
    the UI and [(model, clip, out_stack)]. *)
Definition load_loras (model : option M) (clip : option C)
  (lora_stack : option (list (string * Q * Q)))
  (kwargs : list (string * kw_value)) : loader_state :=
  let incoming := match lora_stack with Some l => l | None => [] end in
  let st0 := mkLoader model clip [] incoming in
  let st1 := fold_left stack_step incoming st0 in
  fold_left row_step kwargs st1.

End LoadLoras.

Arguments mkLoader {M C}.
Arguments ls_model {M C}.
Arguments ls_clip {M C}.
Arguments ls_compat {M C}.
Arguments ls_stack {M C}.
Arguments stack_step {M C}.
Arguments row_step {M C}.
Arguments load_loras {M C}.

(** Sample services: a model counting the LoRAs applied to it, a clip
    passed through, one missing file, and LoRA files holding the three
    keys of one attention block that the model's key map knows. *)
Definition demo_load_lora (m : nat) (c : option nat) (f : string) (sm sc : Q) : nat * option nat :=
  (S m, c).

Definition demo_full_path (f : string) : option string :=
  if String.eqb f "missing.safetensors" then None else Some f.

Definition demo_keys : list string :=
  ["blocks.0.attn.lora_A.weight"; "blocks.0.attn.lora_B.weight"; "blocks.0.attn.alpha"].

Definition demo_read_keys (path : string) : option (list string) := Some demo_keys.

Definition demo_keymap (m : nat) : res (list string) := Ok ["blocks.0.attn"].

Definition demo_rows : list (string * kw_value) :=
  [("lora_1", KwRow (Some true) (Some (Some "style.safetensors")) (Some 1%Q) None);
   ("lora_2", KwRow (Some false) (Some (Some "off.safetensors")) (Some 1%Q) None);
   ("lora_3", KwRow (Some true) (Some (Some "missing.safetensors")) (Some (1 # 2)) (Some None))].

(** ** Arithmetic facts about [snap] and the budget *)

Lemma snap_ge1 (f : Z) : 1 <= snap f.
Proof. unfold snap; lia. Qed.

Lemma snap_aligned (f : Z) : (snap f - 1) mod TEMPORAL_COMPRESSION = 0.
Proof.
  unfold snap, TEMPORAL_COMPRESSION.
  destruct (Z.le_gt_cases 1 ((f - 1) / 4 * 4 + 1)) as [Hle | Hgt].
  - rewrite Z.max_r by lia.
    replace ((f - 1) / 4 * 4 + 1 - 1) with ((f - 1) / 4 * 4) by lia.
    apply Z.mod_mul; lia.
  - rewrite Z.max_l by lia. reflexivity.
Qed.

Lemma snap_le (f : Z) : 1 <= f -> snap f <= f.
Proof.
  intros Hf; unfold snap, TEMPORAL_COMPRESSION.
  pose proof (Z.mul_div_le (f - 1) 4 ltac:(lia)).
  lia.
Qed.

Lemma snap_mono (f g : Z) : f <= g -> snap f <= snap g.
Proof.
  intros Hfg; unfold snap, TEMPORAL_COMPRESSION.
  pose proof (Z.div_le_mono (f - 1) (g - 1) 4 ltac:(lia) ltac:(lia)).
  lia.
Qed.

Lemma requested_frames_ge1 (d fps : Q) : 1 <= requested_frames d fps.
Proof. unfold requested_frames; lia. Qed.

Lemma frames_in_budget_ge1 (vb : Q) (b k : Z) :
  frames_in_budget vb b = Ok k -> 1 <= k.
Proof.
  unfold frames_in_budget, py_div.
  destruct (Qeq_bool (inject_Z b) 0); simpl; intros H; inversion H; lia.
Qed.

Lemma max_physical_ge1 (det : bool) (vb : Q) (b k : Z) :
  (if det then max_physical_detected vb b else max_physical_generic vb b)
    = Ok k -> 1 <= k.
Proof.
  destruct det; unfold max_physical_detected, max_physical_generic.
  - destruct (frames_in_budget vb b) as [m|e] eqn:E; simpl; intros H;
      inversion H; subst.
    apply frames_in_budget_ge1 in E; unfold TEMPORAL_COMPRESSION; lia.
  - apply frames_in_budget_ge1.
Qed.

(** Shape of a successful run with a device present. *)
Lemma execute_cuda_inv (w h : Z) (d fps sm : Q) (model : pyval) (tv : Z)
  (r : node_result) :
  execute w h d fps sm model (Some tv) = Ok r ->
  exists mn hd dl mpf,
    _get_model_info model = Ok (mn, hd, dl) /\
    (if hd then max_physical_detected (inject_Z tv * sm)%Q
                  (bytes_per_frame (spatial_tokens w h) (match hd with
                                    | Some x => x | None => 1 end))
     else max_physical_generic (inject_Z tv * sm)%Q
            (bytes_per_frame (spatial_tokens w h) FALLBACK_HIDDEN_DIM))
      = Ok mpf /\
    1 <= mpf /\
    r_frames r = snap (Z.min (requested_frames d fps) mpf).
Proof.
  unfold execute.
  destruct (_get_model_info model) as [[[mn hd] dl]|e]; simpl; [|discriminate].
  intros H.
  destruct hd as [x|].
  - destruct (max_physical_detected _ _) as [mpf|e] eqn:E; simpl in H;
      [|discriminate].
    destruct (py_div _ fps); simpl in H; [|discriminate].
    inversion H; subst; clear H.
    exists mn, (Some x), dl, mpf; repeat split; auto.
    apply (max_physical_ge1 true _ _ _ E).
  - destruct (max_physical_generic _ _) as [mpf|e] eqn:E; simpl in H;
      [|discriminate].
    destruct (py_div _ fps); simpl in H; [|discriminate].
    inversion H; subst; clear H.
    exists mn, None, dl, mpf; repeat split; auto.
    apply (max_physical_ge1 false _ _ _ E).
Qed.

(** ** Widths returned by [_get_model_info] are positive *)

Lemma fold_res_inv {A B : Type} (P : A -> Prop) (f : A -> B -> res A)
  (l : list B) : forall (acc r : A),
  (forall a x a', P a -> f a x = Ok a' -> P a') ->
  P acc -> fold_res f acc l = Ok r -> P r.
Proof.
  induction l as [|x l IH]; simpl; intros acc r Hf Hacc H.
  - inversion H; subst; assumption.
  - destruct (f acc x) as [a'|e] eqn:E; simpl in H; [|discriminate].
    exact (IH a' r Hf (Hf _ _ _ Hacc E) H).
Qed.

Lemma dict_set_dims_ok (k : string) (v : Z) (d : found_dict) :
  64 <= v -> dims_ok d -> dims_ok (dict_set k v d).
Proof.
  intros Hv; induction d as [|[k' v'] d IH]; simpl; intros Hd.
  - constructor; [exact Hv | constructor].
  - inversion Hd; subst.
    destruct (String.eqb k k'); constructor; simpl; auto.
    apply IH; assumption.
Qed.

Lemma dim_hit_range (v : pyval) (z : Z) :
  dim_hit v = Some z -> 64 <= z <= 32768.
Proof.
  unfold dim_hit; destruct (py_int v) as [x|]; [|discriminate].
  destruct (64 <=? x) eqn:E1, (x <=? 32768) eqn:E2; simpl; intros H;
    try discriminate.
  inversion H; subst; lia.
Qed.

Lemma scan_attrs_dims_ok (p : string) (obj : pyval) (d : found_dict) :
  dims_ok d -> dims_ok (scan_attrs p obj d).
Proof.
  unfold scan_attrs; generalize DIM_ATTRS as l; intros l; revert d.
  induction l as [|a l IH]; simpl; intros d Hd; [exact Hd|].
  apply IH; unfold scan_attr.
  destruct (dim_hit (_safe_getattr obj a)) as [z|] eqn:E; [|exact Hd].
  apply dict_set_dims_ok; [apply dim_hit_range in E; lia | exact Hd].
Qed.

Lemma scan_search_dims_ok (search : list pyval) (found : found_dict) :
  scan_search search = Ok found -> dims_ok found.
Proof.
  unfold scan_search; intros H.
  refine (fold_res_inv dims_ok scan_obj search [] found _ (Forall_nil _) H).
  intros a obj a' Ha Hs; unfold scan_obj in Hs.
  refine (fold_res_inv dims_ok _ CFG_ATTRS _ a' _ (scan_attrs_dims_ok _ _ _ Ha) Hs).
  intros b c b' Hb Hc; unfold scan_cfg in Hc.
  destruct (py_truth _) as [t|e]; simpl in Hc; [|discriminate].
  inversion Hc; subst; destruct t; [apply scan_attrs_dims_ok|]; exact Hb.
Qed.

Lemma nearest_from_ge (est best : Z) (xs : list Z) :
  256 <= best -> Forall (fun x => 256 <= x) xs -> 256 <= nearest_from est best xs.
Proof.
  revert best; induction xs as [|x xs IH]; simpl; intros best Hb Hxs; auto.
  inversion Hxs; subst.
  destruct (Z.abs (x - est) <? Z.abs (best - est)); apply IH; auto.
Qed.

Lemma nearest_standard_ge (est : Z) : 256 <= nearest_standard est.
Proof.
  unfold nearest_standard, STANDARDS.
  apply nearest_from_ge; [lia|].
  repeat constructor; lia.
Qed.

Lemma model_info_dim_ge64 (model : pyval) (mn : option string) (d : Z)
  (dl : list debug_line) :
  _get_model_info model = Ok (mn, Some d, dl) -> 64 <= d.
Proof.
  unfold _get_model_info.
  destruct (is_none model); [intros H; discriminate|].
  destruct (unwrap model) as [m|e]; simpl; [|discriminate].
  destruct (build_search m) as [s|e]; simpl; [|discriminate].
  destruct (scan_search s) as [found|e] eqn:E; simpl; [|discriminate].
  apply scan_search_dims_ok in E.
  destruct found as [|[k v] found'].
  - unfold param_fallback.
    destruct (param_count m) as [n|]; [|discriminate].
    destruct (0 <=? n); [|discriminate].
    intros H; inversion H; subst.
    match goal with
    | |- 64 <= nearest_standard ?e => pose proof (nearest_standard_ge e)
    end; lia.
  - intros H; inversion H; subst. inversion E; subst; simpl in *; lia.
Qed.

(** ** Successful runs on valid requests *)

Lemma py_div_ok (x y : Q) : ~ (y == 0)%Q -> py_div x y = Ok (x / y)%Q.
Proof.
  intros Hy; unfold py_div.
  destruct (Qeq_bool y 0) eqn:E; [|reflexivity].
  apply Qeq_bool_eq in E; contradiction.
Qed.

Lemma inject_Z_nonzero (b : Z) : b <> 0 -> ~ (inject_Z b == 0)%Q.
Proof.
  intros Hb E; apply Hb.
  unfold Qeq in E; simpl in E; lia.
Qed.

Lemma pos_nonzero (q : Q) : (0 < q)%Q -> ~ (q == 0)%Q.
Proof. intros Hq E; rewrite E in Hq; exact (Qlt_irrefl 0 Hq). Qed.

Lemma spatial_tokens_pos (w h : Z) : 8 <= w -> 8 <= h -> 0 < spatial_tokens w h.
Proof.
  intros Hw Hh; unfold spatial_tokens.
  pose proof (Z.div_le_mono 8 w 8 ltac:(lia) Hw).
  pose proof (Z.div_le_mono 8 h 8 ltac:(lia) Hh).
  rewrite Z.div_same in * by lia.
  nia.
Qed.

Lemma bytes_per_frame_pos (w h hd : Z) :
  8 <= w -> 8 <= h -> 0 < hd -> 0 < bytes_per_frame (spatial_tokens w h) hd.
Proof.
  intros Hw Hh Hd; pose proof (spatial_tokens_pos w h Hw Hh).
  unfold bytes_per_frame, TENSOR_COPIES; nia.
Qed.

(** A valid request with a device present returns as soon as the
    introspection does. *)
Lemma execute_cuda_ok (w h : Z) (d fps sm : Q) (model : pyval) (tv : Z)
  (i : model_info) :
  valid_request w h d fps sm (Some tv) ->
  _get_model_info model = Ok i ->
  exists r, execute w h d fps sm model (Some tv) = Ok r.
Proof.
  intros (Hw & Hh & Hfps & _ & _ & _ & _) Hi.
  destruct i as [[mn hd] dl].
  unfold execute; rewrite Hi; simpl.
  destruct hd as [x|].
  - pose proof (model_info_dim_ge64 _ _ _ _ Hi) as Hx.
    pose proof (bytes_per_frame_pos w h x Hw Hh ltac:(lia)) as Hb.
    unfold max_physical_detected, frames_in_budget.
    rewrite py_div_ok by (apply inject_Z_nonzero; lia); simpl.
    rewrite py_div_ok by (apply pos_nonzero; exact Hfps); simpl.
    eexists; reflexivity.
  - pose proof (bytes_per_frame_pos w h FALLBACK_HIDDEN_DIM Hw Hh
                  ltac:(unfold FALLBACK_HIDDEN_DIM; lia)) as Hb.
    unfold max_physical_generic, frames_in_budget.
    rewrite py_div_ok by (apply inject_Z_nonzero; lia); simpl.
    rewrite py_div_ok by (apply pos_nonzero; exact Hfps); simpl.
    eexists; reflexivity.
Qed.

(** Every successful run returns between 1 and [requested_frames] frames. *)
Lemma execute_frames_bounds (w h : Z) (d fps sm : Q) (model : pyval)
  (cuda : option Z) (r : node_result) :
  execute w h d fps sm model cuda = Ok r ->
  1 <= r_frames r <= requested_frames d fps.
Proof.
  destruct cuda as [tv|].
  - intros H; apply execute_cuda_inv in H.
    destruct H as (mn & hd & dl & mpf & _ & _ & Hmpf & ->).
    pose proof (requested_frames_ge1 d fps).
    split; [apply snap_ge1|].
    pose proof (snap_le (Z.min (requested_frames d fps) mpf) ltac:(lia)).
    lia.
  - unfold execute; intros H; inversion H; subst; simpl.
    pose proof (requested_frames_ge1 d fps); lia.
Qed.

(** ** Monotonicity in the budget *)

Lemma Qle_bool_false (x y : Q) : Qle_bool x y = false -> (y < x)%Q.
Proof.
  intros E; apply Qnot_le_lt; intros Hle.
  apply Qle_bool_iff in Hle; congruence.
Qed.

Lemma Qfloor_nonneg (x : Q) : (0 <= x)%Q -> 0 <= Qfloor x.
Proof. intros H; apply (Qfloor_resp_le 0 x) in H; exact H. Qed.

Lemma py_trunc_mono (x y : Q) : (x <= y)%Q -> py_trunc x <= py_trunc y.
Proof.
  intros Hxy; unfold py_trunc.
  destruct (Qle_bool 0 x) eqn:Ex, (Qle_bool 0 y) eqn:Ey.
  - apply Qfloor_resp_le; exact Hxy.
  - apply Qle_bool_iff in Ex; apply Qle_bool_false in Ey.
    exfalso; apply (Qlt_irrefl 0); apply (Qle_lt_trans _ y); auto.
    apply (Qle_trans _ x); auto.
  - apply Qle_bool_false in Ex; apply Qle_bool_iff in Ey.
    pose proof (Qfloor_nonneg y Ey).
    assert (0 <= - x)%Q as Hx.
    { apply (Qopp_le_compat x 0), Qlt_le_weak, Ex. }
    pose proof (Qfloor_nonneg _ Hx); lia.
  - pose proof (Qfloor_resp_le (- y) (- x) (Qopp_le_compat x y Hxy)); lia.
Qed.

Lemma frames_in_budget_mono (vb1 vb2 : Q) (b k1 k2 : Z) :
  0 < b -> (vb1 <= vb2)%Q ->
  frames_in_budget vb1 b = Ok k1 -> frames_in_budget vb2 b = Ok k2 ->
  k1 <= k2.
Proof.
  intros Hb Hvb; unfold frames_in_budget.
  rewrite !py_div_ok by (apply inject_Z_nonzero; lia); simpl.
  intros H1 H2; inversion H1; inversion H2; subst.
  assert (vb1 / inject_Z b <= vb2 / inject_Z b)%Q as Hq.
  { unfold Qdiv; apply Qmult_le_compat_r; [exact Hvb|].
    apply Qinv_le_0_compat.
    change 0%Q with (inject_Z 0); rewrite <- Zle_Qle; lia. }
  pose proof (py_trunc_mono _ _ Hq); lia.
Qed.

Lemma max_physical_mono (det : bool) (vb1 vb2 : Q) (b k1 k2 : Z) :
  0 < b -> (vb1 <= vb2)%Q ->
  (if det then max_physical_detected vb1 b else max_physical_generic vb1 b)
    = Ok k1 ->
  (if det then max_physical_detected vb2 b else max_physical_generic vb2 b)
    = Ok k2 ->
  k1 <= k2.
Proof.
  intros Hb Hvb; destruct det; unfold max_physical_detected, max_physical_generic.
  - destruct (frames_in_budget vb1 b) as [m1|e] eqn:E1; simpl; [|discriminate].
    destruct (frames_in_budget vb2 b) as [m2|e] eqn:E2; simpl; [|discriminate].
    intros H1 H2; inversion H1; inversion H2; subst.
    pose proof (frames_in_budget_mono _ _ _ _ _ Hb Hvb E1 E2).
    unfold TEMPORAL_COMPRESSION; lia.
  - apply frames_in_budget_mono; assumption.
Qed.

Lemma budget_mono (c1 c2 : Z) (sm : Q) :
  c1 <= c2 -> (0 < sm)%Q -> (inject_Z c1 * sm <= inject_Z c2 * sm)%Q.
Proof.
  intros Hc Hsm; apply Qmult_le_compat_r; [|apply Qlt_le_weak, Hsm].
  rewrite <- Zle_Qle; exact Hc.
Qed.

(** ** Claims about the frame budget *)

(** C1 (counterexample): a width obtained from the parameter-count estimate
    is budgeted with the latent-frame formula, not with the
    no-compression formula: at 832x480, 16 fps, 10 s, 16 GiB, the node keeps
    161 frames where the no-compression formula gives 125. *)
Lemma C1_param_estimate_uses_latent_formula :
  _get_model_info unet_model = Ok (Some "UNetLike", Some 2048, [DLEstimate 2048]) /\
  match execute 832 480 10 16 (95 # 100) unet_model (Some (16 * GiB)) with
  | Ok r =>
      r_frames r = 161 /\
      r_frames r <>
        snap (Z.min (requested_frames 10 16)
          (Z.max 1 (py_trunc (inject_Z (16 * GiB) * (95 # 100)
                    / inject_Z (bytes_per_frame (spatial_tokens 832 480) 2048))%Q)))
  | Raise _ => False
  end.
Proof. vm_compute; split; [reflexivity | split; [reflexivity | discriminate]]. Qed.

(** C1 (amended): with a device present, the no-compression formula
    [max(1, floor(budget / (5 * spatial_tokens * 1536 * 2)))] is used exactly
    when introspection yields no width; any detected width, the
    parameter-count estimate included, is budgeted in latent frames:
    [(max(1, floor(budget / (5 * spatial_tokens * d * 2))) - 1) * 4 + 1]. *)
Theorem C1_budget_formula_by_source (w h : Z) (d fps sm : Q) (model : pyval)
  (tv : Z) (mn : option string) (hd : option Z) (dl : list debug_line)
  (r : node_result) :
  valid_request w h d fps sm (Some tv) ->
  _get_model_info model = Ok (mn, hd, dl) ->
  execute w h d fps sm model (Some tv) = Ok r ->
  (hd = None ->
   r_frames r =
     snap (Z.min (requested_frames d fps)
       (Z.max 1 (py_trunc (inject_Z tv * sm / inject_Z
          (bytes_per_frame (spatial_tokens w h) FALLBACK_HIDDEN_DIM))%Q)))) /\
  (forall x, hd = Some x ->
   r_frames r =
     snap (Z.min (requested_frames d fps)
       ((Z.max 1 (py_trunc (inject_Z tv * sm / inject_Z
          (bytes_per_frame (spatial_tokens w h) x))%Q) - 1)
        * TEMPORAL_COMPRESSION + 1))).
Proof.
  intros (Hw & Hh & Hfps & _) Hi Hr.
  unfold execute in Hr; rewrite Hi in Hr; simpl in Hr.
  destruct hd as [x|].
  - pose proof (model_info_dim_ge64 _ _ _ _ Hi) as Hx.
    pose proof (bytes_per_frame_pos w h x Hw Hh ltac:(lia)) as Hb.
    unfold max_physical_detected, frames_in_budget in Hr.
    rewrite py_div_ok in Hr by (apply inject_Z_nonzero; lia); simpl in Hr.
    rewrite py_div_ok in Hr by (apply pos_nonzero; exact Hfps); simpl in Hr.
    inversion Hr; subst; simpl.
    split; [discriminate | intros y Hy; inversion Hy; subst; reflexivity].
  - pose proof (bytes_per_frame_pos w h FALLBACK_HIDDEN_DIM Hw Hh
                  ltac:(unfold FALLBACK_HIDDEN_DIM; lia)) as Hb.
    unfold max_physical_generic, frames_in_budget in Hr.
    rewrite py_div_ok in Hr by (apply inject_Z_nonzero; lia); simpl in Hr.
    rewrite py_div_ok in Hr by (apply pos_nonzero; exact Hfps); simpl in Hr.
    inversion Hr; subst; simpl.
    split; [reflexivity | intros y Hy; discriminate].
Qed.

Lemma C1_budget_formula_by_source_witness :
  valid_request 832 480 10 16 (95 # 100) (Some (16 * GiB)) /\
  _get_model_info unet_model = Ok (Some "UNetLike", Some 2048, [DLEstimate 2048]) /\
  exists r, execute 832 480 10 16 (95 # 100) unet_model (Some (16 * GiB)) = Ok r /\
  r_frames r
    = snap (Z.min (requested_frames 10 16)
       ((Z.max 1 (py_trunc (inject_Z (16 * GiB) * (95 # 100) / inject_Z
          (bytes_per_frame (spatial_tokens 832 480) 2048))%Q) - 1)
        * TEMPORAL_COMPRESSION + 1)).
Proof.
  assert (Hv : valid_request 832 480 10 16 (95 # 100) (Some (16 * GiB)))
    by solve_valid.
  assert (Hi : _get_model_info unet_model
               = Ok (Some "UNetLike", Some 2048, [DLEstimate 2048]))
    by (vm_compute; reflexivity).
  split; [exact Hv | split; [exact Hi |]].
  destruct (execute 832 480 10 16 (95 # 100) unet_model (Some (16 * GiB)))
    as [r|e] eqn:E.
  - exists r; split; [reflexivity|].
    exact (proj2 (C1_budget_formula_by_source _ _ _ _ _ _ _ _ _ _ r Hv Hi E)
             2048 eq_refl).
  - vm_compute in E; discriminate.
Defined.

(** C2 (counterexample): without a device the requested count is returned
    unsnapped: 1 s at 30 fps gives 31 frames, and [(31 - 1) mod 4 = 2]. *)
Lemma C2_no_device_not_aligned :
  valid_request 832 480 1 30 (95 # 100) None /\
  match execute 832 480 1 30 (95 # 100) wan_model None with
  | Ok r => r_frames r = 31 /\ (r_frames r - 1) mod TEMPORAL_COMPRESSION <> 0
  | Raise _ => False
  end.
Proof.
  split; [solve_valid|].
  vm_compute; split; [reflexivity | discriminate].
Qed.

(** C2 (amended): whenever a device is present, the returned frame count
    satisfies [(capped_frames - 1) mod 4 = 0]. *)
Theorem C2_capped_frames_aligned (w h : Z) (d fps sm : Q) (model : pyval)
  (tv : Z) (r : node_result) :
  valid_request w h d fps sm (Some tv) ->
  execute w h d fps sm model (Some tv) = Ok r ->
  (r_frames r - 1) mod TEMPORAL_COMPRESSION = 0.
Proof.
  intros _ H; apply execute_cuda_inv in H.
  destruct H as (mn & hd & dl & mpf & _ & _ & _ & ->).
  apply snap_aligned.
Qed.

Lemma C2_capped_frames_aligned_witness :
  valid_request 832 480 1 30 (95 # 100) (Some (16 * GiB)) /\
  exists r, execute 832 480 1 30 (95 # 100) wan_model (Some (16 * GiB)) = Ok r /\
  (r_frames r - 1) mod TEMPORAL_COMPRESSION = 0.
Proof.
  assert (Hv : valid_request 832 480 1 30 (95 # 100) (Some (16 * GiB)))
    by solve_valid.
  split; [exact Hv|].
  destruct (execute 832 480 1 30 (95 # 100) wan_model (Some (16 * GiB)))
    as [r|e] eqn:E.
  - exists r; split; [reflexivity|].
    exact (C2_capped_frames_aligned _ _ _ _ _ _ _ r Hv E).
  - vm_compute in E; discriminate.
Defined.


(** The duration division of a device run whose frame budget is
    computed. *)
Lemma execute_cuda_div (w h : Z) (d fps sm : Q) (model : pyval) (tv : Z)
  (i : model_info) :
  8 <= w -> 8 <= h -> _get_model_info model = Ok i ->
  exists k, execute w h d fps sm model (Some tv) =
    (actual_duration <- py_div (inject_Z (k - 1)) fps ;;
     Ok (mkResult w h k fps actual_duration
           (UiInfo (inject_Z tv / inject_Z (1024 ^ 3))%Q
              (match snd (fst i) with Some _ => label_of (fst (fst i)) | None => "generic" end)
              (match snd (fst i) with Some x => x | None => FALLBACK_HIDDEN_DIM end)
              (requested_frames d fps) k actual_duration))).
Proof.
  intros Hw Hh Hi.
  destruct i as [[mn hd] dl].
  unfold execute; rewrite Hi; simpl.
  destruct hd as [x|].
  - pose proof (model_info_dim_ge64 _ _ _ _ Hi) as Hx.
    pose proof (bytes_per_frame_pos w h x Hw Hh ltac:(lia)) as Hb.
    unfold max_physical_detected, frames_in_budget.
    rewrite py_div_ok by (apply inject_Z_nonzero; lia); simpl.
    eexists; reflexivity.
  - pose proof (bytes_per_frame_pos w h FALLBACK_HIDDEN_DIM Hw Hh
                  ltac:(unfold FALLBACK_HIDDEN_DIM; lia)) as Hb.
    unfold max_physical_generic, frames_in_budget.
    rewrite py_div_ok by (apply inject_Z_nonzero; lia); simpl.
    eexists; reflexivity.
Qed.



(** C4 (counterexample): without a device the node passes the input
    duration through: 0.1 s at 16 fps gives 3 frames, but the returned
    duration is 0.1, not (3 - 1) / 16 = 0.125. *)
Lemma C4_no_device_duration_passthrough :
  valid_request 832 480 (1 # 10) 16 (95 # 100) None /\
  match execute 832 480 (1 # 10) 16 (95 # 100) wan_model None with
  | Ok r =>
      r_frames r = requested_frames (1 # 10) 16 /\ r_frames r = 3 /\
      ~ (r_duration r == inject_Z (r_frames r - 1) / 16)%Q
  | Raise _ => False
  end.
Proof.
  split; [solve_valid|].
  vm_compute; split; [reflexivity | split; [reflexivity | discriminate]].
Qed.

(** C4 (amended): without a device the node returns [requested_frames]
    exactly and passes [width], [height], [fps] and the input [duration]
    through unchanged. *)
Theorem C4_no_device_passthrough (w h : Z) (d fps sm : Q) (model : pyval) :
  execute w h d fps sm model None
    = Ok (mkResult w h (requested_frames d fps) fps d UiNoCuda).
Proof. reflexivity. Qed.

(** C6: every run on a valid request that returns gives
    [1 <= capped_frames <= requested_frames]. *)
Theorem C6_capped_frames_bounds (w h : Z) (d fps sm : Q) (model : pyval)
  (cuda : option Z) (r : node_result) :
  valid_request w h d fps sm cuda ->
  execute w h d fps sm model cuda = Ok r ->
  1 <= r_frames r <= requested_frames d fps.
Proof. intros _ H; exact (execute_frames_bounds _ _ _ _ _ _ _ _ H). Qed.

Lemma C6_capped_frames_bounds_witness :
  valid_request 832 480 10 16 (95 # 100) (Some (4 * GiB)) /\
  exists r, execute 832 480 10 16 (95 # 100) wan_model (Some (4 * GiB)) = Ok r /\
  1 <= r_frames r <= requested_frames 10 16.
Proof.
  assert (Hv : valid_request 832 480 10 16 (95 # 100) (Some (4 * GiB)))
    by solve_valid.
  split; [exact Hv|].
  destruct (execute 832 480 10 16 (95 # 100) wan_model (Some (4 * GiB)))
    as [r|e] eqn:E.
  - exists r; split; [reflexivity|].
    exact (C6_capped_frames_bounds _ _ _ _ _ _ _ r Hv E).
  - vm_compute in E; discriminate.
Defined.

(** C7: with all other inputs fixed, a larger device capacity never gives
    fewer frames, and both counts stay within [requested_frames]. *)
Theorem C7_capacity_monotone (w h : Z) (d fps sm : Q) (model : pyval)
  (c1 c2 : Z) (r1 r2 : node_result) :
  valid_request w h d fps sm (Some c1) ->
  valid_request w h d fps sm (Some c2) ->
  c1 <= c2 ->
  execute w h d fps sm model (Some c1) = Ok r1 ->
  execute w h d fps sm model (Some c2) = Ok r2 ->
  r_frames r1 <= r_frames r2 /\
  r_frames r1 <= requested_frames d fps /\
  r_frames r2 <= requested_frames d fps.
Proof.
  intros (Hw & Hh & _ & _ & Hsm & _) _ Hc H1 H2.
  pose proof (execute_frames_bounds _ _ _ _ _ _ _ _ H1) as B1.
  pose proof (execute_frames_bounds _ _ _ _ _ _ _ _ H2) as B2.
  apply execute_cuda_inv in H1, H2.
  destruct H1 as (mn1 & hd1 & dl1 & m1 & I1 & M1 & _ & F1).
  destruct H2 as (mn2 & hd2 & dl2 & m2 & I2 & M2 & _ & F2).
  rewrite I1 in I2; inversion I2; subst; clear I2.
  split; [|split; lia].
  rewrite F1, F2.
  apply snap_mono.
  assert (m1 <= m2).
  { destruct hd2 as [x|].
    - pose proof (model_info_dim_ge64 _ _ _ _ I1) as Hx.
      exact (max_physical_mono true _ _ _ _ _
               (bytes_per_frame_pos w h x Hw Hh ltac:(lia))
               (budget_mono c1 c2 sm Hc Hsm) M1 M2).
    - exact (max_physical_mono false _ _ _ _ _
               (bytes_per_frame_pos w h FALLBACK_HIDDEN_DIM Hw Hh
                  ltac:(unfold FALLBACK_HIDDEN_DIM; lia))
               (budget_mono c1 c2 sm Hc Hsm) M1 M2). }
  lia.
Qed.

Lemma C7_capacity_monotone_witness :
  exists r1 r2,
  execute 832 480 30 16 (95 # 100) wan_model (Some (4 * GiB)) = Ok r1 /\
  execute 832 480 30 16 (95 # 100) wan_model (Some (8 * GiB)) = Ok r2 /\
  r_frames r1 <= r_frames r2 /\
  r_frames r1 <= requested_frames 30 16 /\
  r_frames r2 <= requested_frames 30 16.
Proof.
  destruct (execute 832 480 30 16 (95 # 100) wan_model (Some (4 * GiB)))
    as [r1|e] eqn:E1; [|vm_compute in E1; discriminate].
  destruct (execute 832 480 30 16 (95 # 100) wan_model (Some (8 * GiB)))
    as [r2|e] eqn:E2; [|vm_compute in E2; discriminate].
  exists r1, r2; split; [reflexivity | split; [reflexivity|]].
  apply (C7_capacity_monotone 832 480 30 16 (95 # 100) wan_model
           (4 * GiB) (8 * GiB)); [solve_valid | solve_valid | | exact E1 | exact E2].
  unfold GiB; lia.
Defined.

(** C8: the worked example 832x480, 16 fps, 10 s, margin 0.95, 16 GiB and a
    model with a direct [hidden_size = 1536]. *)
Theorem C8_worked_example :
  _get_model_info (handle_of wan_model)
    = Ok (Some "WanModel", Some 1536, [DLHit "WanModel.hidden_size" 1536]) /\
  requested_frames 10 16 = 161 /\
  spatial_tokens 832 480 = 6240 /\
  bytes_per_frame 6240 1536 = 95846400 /\
  frames_in_budget (inject_Z (16 * GiB) * (95 # 100))%Q 95846400 = Ok 170 /\
  max_physical_detected (inject_Z (16 * GiB) * (95 # 100))%Q 95846400 = Ok 677 /\
  match execute 832 480 10 16 (95 # 100) (handle_of wan_model) (Some (16 * GiB)) with
  | Ok r => r_frames r = 161 /\ (r_duration r == 10)%Q
  | Raise _ => False
  end.
Proof.
  repeat split; vm_compute; reflexivity.
Qed.

(** C10: with a device present, when introspection yields no width (for
    instance for an absent model), the node budgets with the fixed width
    1536 and labels the model ["generic"] in its report. *)
Theorem C10_generic_fallback (w h : Z) (d fps sm : Q) (model : pyval)
  (tv : Z) (mn : option string) (dl : list debug_line) (r : node_result) :
  _get_model_info model = Ok (mn, None, dl) ->
  execute w h d fps sm model (Some tv) = Ok r ->
  FALLBACK_HIDDEN_DIM = 1536 /\
  exists vram_gb dur,
    r_ui r = UiInfo vram_gb "generic" FALLBACK_HIDDEN_DIM
               (requested_frames d fps) (r_frames r) dur /\
    exists mpf,
      max_physical_generic (inject_Z tv * sm)%Q
        (bytes_per_frame (spatial_tokens w h) FALLBACK_HIDDEN_DIM) = Ok mpf /\
      r_frames r = snap (Z.min (requested_frames d fps) mpf).
Proof.
  intros Hi Hr; split; [reflexivity|].
  unfold execute in Hr; rewrite Hi in Hr; simpl in Hr.
  destruct (max_physical_generic _ _) as [mpf|e] eqn:E; simpl in Hr;
    [|discriminate].
  destruct (py_div _ fps) as [q|e]; simpl in Hr; [|discriminate].
  inversion Hr; subst; simpl.
  exists (inject_Z tv / inject_Z (1024 ^ 3))%Q, q; split; [reflexivity|].
  exists mpf; split; [first [exact E | reflexivity] | reflexivity].
Qed.

Lemma C10_generic_fallback_witness :
  _get_model_info VNone = Ok (None, None, []) /\
  exists r, execute 832 480 10 16 (95 # 100) VNone (Some (16 * GiB)) = Ok r /\
  FALLBACK_HIDDEN_DIM = 1536 /\
  exists vram_gb dur,
    r_ui r = UiInfo vram_gb "generic" FALLBACK_HIDDEN_DIM
               (requested_frames 10 16) (r_frames r) dur /\
    exists mpf,
      max_physical_generic (inject_Z (16 * GiB) * (95 # 100))%Q
        (bytes_per_frame (spatial_tokens 832 480) FALLBACK_HIDDEN_DIM) = Ok mpf /\
      r_frames r = snap (Z.min (requested_frames 10 16) mpf).
Proof.
  assert (Hi : _get_model_info VNone = Ok (None, None, [])) by reflexivity.
  split; [exact Hi|].
  destruct (execute 832 480 10 16 (95 # 100) VNone (Some (16 * GiB)))
    as [r|e] eqn:E; [|vm_compute in E; discriminate].
  exists r; split; [reflexivity|].
  exact (C10_generic_fallback _ _ _ _ _ _ _ _ _ r Hi E).
Defined.

(** ** Introspection of handles whose reads fail only with [AttributeError] *)

Lemma lookup_slot_In (a : string) (l : list (string * slot)) (s : slot) :
  lookup_slot a l = Some s -> In (a, s) l.
Proof.
  induction l as [|[b s'] l IH]; simpl; [discriminate|].
  destruct (String.eqb a b) eqn:E; intros H.
  - inversion H; subst; apply String.eqb_eq in E; subst; left; reflexivity.
  - right; exact (IH H).
Qed.

Lemma fold_res_ok {A B : Type} (P : A -> Prop) (f : A -> B -> res A)
  (l : list B) : forall acc : A,
  (forall a x, In x l -> P a -> exists a', f a x = Ok a' /\ P a') ->
  P acc -> exists r, fold_res f acc l = Ok r /\ P r.
Proof.
  induction l as [|x l IH]; simpl; intros acc Hf Hacc.
  - exists acc; split; [reflexivity | exact Hacc].
  - destruct (Hf acc x (or_introl eq_refl) Hacc) as (a' & E & Ha').
    rewrite E; simpl.
    apply IH; [intros a y Hy; apply Hf; right; exact Hy | exact Ha'].
Qed.

(** ** Order of the width search *)

Lemma string_app_assoc (a b c : string) : (a ++ b) ++ c = a ++ (b ++ c).
Proof. induction a as [|x a IH]; simpl; [reflexivity | rewrite IH; reflexivity]. Qed.

Lemma string_app_cancel (t s1 s2 : string) : t ++ s1 = t ++ s2 -> s1 = s2.
Proof.
  induction t as [|x t IH]; simpl; intros H; [exact H|].
  injection H; exact IH.
Qed.

Lemma no_dot_split (x t r1 r2 : string) :
  no_dot x = true -> no_dot t = true ->
  x ++ String "." r1 = t ++ String "." r2 -> x = t.
Proof.
  revert t; induction x as [|c x IH]; intros t Hx Ht H;
    destruct t as [|c' t]; simpl in *.
  - reflexivity.
  - injection H as Hc _; subst c'; discriminate Ht.
  - injection H as Hc _; subst c; discriminate Hx.
  - apply andb_true_iff in Hx as [_ Hx]; apply andb_true_iff in Ht as [_ Ht].
    injection H as Hc H; subst c'.
    f_equal; exact (IH t Hx Ht H).
Qed.

Lemma dict_set_head (k k0 : string) (v v0 : Z) (d : found_dict) :
  k <> k0 -> head_is k0 v0 d -> head_is k0 v0 (dict_set k v d).
Proof.
  intros Hk [rest ->]; simpl.
  destruct (String.eqb k k0) eqn:E.
  - apply String.eqb_eq in E; contradiction.
  - eexists; reflexivity.
Qed.

Lemma scan_attrs_head_gen (p k0 : string) (v0 : Z) (obj : pyval)
  (l : list string) : forall d,
  (forall a, In a l -> p ++ "." ++ a <> k0) ->
  head_is k0 v0 d -> head_is k0 v0 (fold_left (scan_attr p obj) l d).
Proof.
  induction l as [|a l IH]; simpl; intros d Hk Hd; [exact Hd|].
  apply IH; [intros b Hb; apply Hk; right; exact Hb|].
  unfold scan_attr; destruct (dim_hit (_safe_getattr obj a)); [|exact Hd].
  apply dict_set_head; [apply Hk; left; reflexivity | exact Hd].
Qed.

Lemma fold_res_inv_in {A B : Type} (P : A -> Prop) (f : A -> B -> res A)
  (l : list B) : forall (acc r : A),
  (forall a x a', In x l -> P a -> f a x = Ok a' -> P a') ->
  P acc -> fold_res f acc l = Ok r -> P r.
Proof.
  induction l as [|x l IH]; simpl; intros acc r Hf Hacc H.
  - inversion H; subst; assumption.
  - destruct (f acc x) as [a'|e] eqn:E; simpl in H; [|discriminate].
    apply (IH a' r); [intros a y a'' Hy; apply Hf; right; exact Hy | | exact H].
    exact (Hf _ _ _ (or_introl eq_refl) Hacc E).
Qed.

(** The config scan of an object keeps the first entry when none of its
    keys is that entry's key. *)
Lemma scan_cfgs_head (x k0 : string) (v0 : Z) (obj : pyval) (d d' : found_dict) :
  (forall c a, In c CFG_ATTRS -> x ++ String "." (c ++ String "." a) <> k0) ->
  head_is k0 v0 d ->
  fold_res (scan_cfg x obj) d CFG_ATTRS = Ok d' -> head_is k0 v0 d'.
Proof.
  intros Hk; apply fold_res_inv_in.
  intros f c f' Hc Hf E; unfold scan_cfg in E.
  destruct (py_truth _) as [b|e]; simpl in E; [|discriminate].
  inversion E; subst; clear E.
  destruct b; [|exact Hf].
  apply scan_attrs_head_gen; [|exact Hf].
  intros a _; rewrite !string_app_assoc; simpl; apply Hk; exact Hc.
Qed.

(** An object none of whose keys is the first entry's key keeps it. *)
Lemma scan_obj_head (k0 : string) (v0 : Z) (obj : pyval) (d d' : found_dict) :
  (forall r, type_name obj ++ String "." r <> k0) ->
  head_is k0 v0 d -> scan_obj d obj = Ok d' -> head_is k0 v0 d'.
Proof.
  intros Hk Hd; unfold scan_obj.
  apply scan_cfgs_head; [intros c a _; apply Hk|].
  apply scan_attrs_head_gen; [intros a _; apply Hk | exact Hd].
Qed.

Lemma build_search_head (m : pyval) (s : list pyval) :
  build_search m = Ok s -> exists rest, s = m :: rest.
Proof.
  unfold build_search; intros H.
  refine (fold_res_inv (fun s => exists rest, s = m :: rest) _ _ _ _ _
            (ex_intro _ [] eq_refl) H).
  intros a attr a' [rest ->] E; unfold search_step in E.
  destruct (py_getattr m attr); simpl in E; [|discriminate].
  inversion E; subst.
  destruct (_ && _); eexists; reflexivity.
Qed.

Lemma unwrap_none : unwrap VNone = Ok VNone.
Proof. reflexivity. Qed.

(** ** Claims about the introspection *)

(** C5 (counterexample): the search does not stop at the first direct hit
    and does not defer the config scan: for each object it scans the direct
    names and then its configs, so the [config] of the first object
    (2048) wins over the direct [hidden_size] of the later [transformer]
    (1536), and both hits are recorded. *)
Lemma C5_config_of_earlier_object_wins :
  build_search dit_model = Ok [dit_model; dit_transformer] /\
  _safe_getattr dit_transformer "hidden_size" = VInt 1536 /\
  _get_model_info dit_model =
    Ok (Some "DiTModel", Some 2048,
        [DLHit "DiTModel.config.hidden_size" 2048;
         DLHit "DiTTransformer.hidden_size" 1536]).
Proof. repeat split; vm_compute; reflexivity. Qed.

(** C5 (amended): a direct in-range [hidden_size] on the unwrapped model,
    the first object of the search set, is the returned width whatever any
    config exposes, provided the class names are dot-free and no other
    search-set object has the same class name (its keys would overwrite the
    entry). *)
Theorem C5_direct_hidden_size_on_model_wins (model m : pyval)
  (search : list pyval) (h : Z) (mn : option string) (hd : option Z)
  (dl : list debug_line) :
  unwrap model = Ok m ->
  build_search m = Ok search ->
  dim_hit (_safe_getattr m "hidden_size") = Some h ->
  no_dot (type_name m) = true ->
  Forall (fun v => no_dot (type_name v) = true /\ type_name v <> type_name m)
    (tl search) ->
  _get_model_info model = Ok (mn, hd, dl) ->
  hd = Some h.
Proof.
  intros Hu Hb Hh Hm Hrest Hi.
  destruct (build_search_head _ _ Hb) as [rest ->]; simpl in Hrest.
  unfold _get_model_info in Hi.
  destruct (is_none model) eqn:En.
  - destruct model; try discriminate.
    rewrite unwrap_none in Hu; inversion Hu; subst; discriminate Hh.
  - rewrite Hu in Hi; simpl in Hi; rewrite Hb in Hi; simpl in Hi.
    destruct (scan_search (m :: rest)) as [found|e] eqn:Es; simpl in Hi;
      [|discriminate].
    assert (Hf : head_is (type_name m ++ "." ++ "hidden_size") h found).
    { unfold scan_search in Es; simpl in Es.
      destruct (scan_obj [] m) as [d1|e] eqn:E1; simpl in Es; [|discriminate].
      apply (fold_res_inv_in _ scan_obj rest d1 found); [| |exact Es].
      - intros d obj d' Hin Hd E.
        apply (scan_obj_head _ _ obj d d'); [|exact Hd | exact E].
        intros r Heq.
        rewrite Forall_forall in Hrest; destruct (Hrest obj Hin) as [Hn Hne].
        apply Hne; exact (no_dot_split _ _ r "hidden_size" Hn Hm Heq).
      - unfold scan_obj in E1.
        apply (scan_cfgs_head (type_name m) _ _ m
                 (scan_attrs (type_name m) m [])); [| |exact E1].
        + intros c a Hc Heq; apply string_app_cancel in Heq.
          injection Heq as Heq.
          destruct Hc as [<- | [<- | []]]; discriminate Heq.
        + unfold scan_attrs.
          replace (fold_left (scan_attr (type_name m) m) DIM_ATTRS [])
            with (fold_left (scan_attr (type_name m) m) (tl DIM_ATTRS)
                    (scan_attr (type_name m) m [] "hidden_size"))
            by reflexivity.
          assert (E0 : scan_attr (type_name m) m [] "hidden_size"
                       = [(type_name m ++ "." ++ "hidden_size", h)])
            by (unfold scan_attr; rewrite Hh; reflexivity).
          rewrite E0.
          apply scan_attrs_head_gen; [|eexists; reflexivity].
          simpl tl.
          intros a Ha Heq; apply string_app_cancel in Heq.
          repeat (destruct Ha as [<- | Ha]; [discriminate Heq|]); destruct Ha. }
    destruct Hf as [r ->]; inversion Hi; reflexivity.
Qed.

Lemma C5_direct_hidden_size_on_model_wins_witness :
  _get_model_info wan_full =
    Ok (Some "WanModel", Some 1536,
        [DLHit "WanModel.hidden_size" 1536;
         DLHit "WanModel.config.hidden_size" 2048;
         DLHit "DiTModel.config.hidden_size" 2048]) /\
  exists i, _get_model_info wan_full = Ok i /\ snd (fst i) = Some 1536.
Proof.
  assert (Hi : _get_model_info wan_full =
    Ok (Some "WanModel", Some 1536,
        [DLHit "WanModel.hidden_size" 1536;
         DLHit "WanModel.config.hidden_size" 2048;
         DLHit "DiTModel.config.hidden_size" 2048]))
    by (vm_compute; reflexivity).
  split; [exact Hi|].
  eexists; split; [exact Hi|]; simpl.
  apply (C5_direct_hidden_size_on_model_wins wan_full wan_full
           [wan_full; dit_model] 1536 (Some "WanModel") (Some 1536)
           [DLHit "WanModel.hidden_size" 1536;
            DLHit "WanModel.config.hidden_size" 2048;
            DLHit "DiTModel.config.hidden_size" 2048]);
    [vm_compute; reflexivity | vm_compute; reflexivity |
     vm_compute; reflexivity | vm_compute; reflexivity | | exact Hi].
  simpl; constructor; [split; [vm_compute; reflexivity | discriminate] |
                       constructor].
Defined.


Lemma fold_res_raise {A B : Type} (f : A -> B -> res A) (l : list B) :
  forall (acc : A) (e : exn),
  fold_res f acc l = Raise e -> exists a x, In x l /\ f a x = Raise e.
Proof.
  induction l as [|x l IH]; simpl; intros acc e H; [discriminate|].
  destruct (f acc x) as [a'|e'] eqn:E; simpl in H.
  - destruct (IH a' e H) as (a & y & Hy & Ey); exists a, y; split; [right|]; assumption.
  - inversion H; subst; exists acc, x; split; [left; reflexivity | exact E].
Qed.

Lemma getattr_not_attribute_error (v : pyval) (a : string) :
  py_getattr v a <> Raise AttributeError.
Proof.
  destruct v as [| | | |o|]; simpl; try discriminate.
  destruct (lookup_slot a (slots o)) as [[w|[w|[]]|w| |[w|[]]]|]; discriminate.
Qed.

Lemma unwrap_raise (model : pyval) (e : exn) :
  unwrap model = Raise e -> exists v a, In a ["model"; "diffusion_model"] /\ py_getattr v a = Raise e.
Proof.
  intros H; destruct (fold_res_raise _ _ _ _ H) as (v & a & Ha & E).
  unfold unwrap_step in E; destruct (py_getattr v a) as [w|e'] eqn:Eg; simpl in E;
    [discriminate|].
  inversion E; subst; exists v, a; split; assumption.
Qed.

Lemma build_search_raise (m : pyval) (e : exn) :
  build_search m = Raise e -> exists a, In a SEARCH_ATTRS /\ py_getattr m a = Raise e.
Proof.
  intros H; destruct (fold_res_raise _ _ _ _ H) as (s & a & Ha & E).
  unfold search_step in E; destruct (py_getattr m a) as [w|e'] eqn:Eg; simpl in E;
    [discriminate|].
  inversion E; subst; exists a; split; assumption.
Qed.

Lemma scan_search_raise (s : list pyval) (e : exn) :
  scan_search s = Raise e ->
  exists obj c, In obj s /\ In c CFG_ATTRS /\ py_truth (_safe_getattr obj c) = Raise e.
Proof.
  intros H; destruct (fold_res_raise _ _ _ _ H) as (f & obj & Hobj & E).
  unfold scan_obj in E; destruct (fold_res_raise _ _ _ _ E) as (f' & c & Hc & E').
  unfold scan_cfg in E'; destruct (py_truth (_safe_getattr obj c)) as [b|e'] eqn:Et;
    simpl in E'; [discriminate|].
  inversion E'; subst; exists obj, c; repeat split; assumption.
Qed.

Lemma unwrap_wrap_reach (model : pyval) :
  (forall v a e, wrap_reach model v -> In a SEARCH_ATTRS -> py_getattr v a <> Raise e) ->
  exists m, unwrap model = Ok m /\ wrap_reach model m.
Proof.
  intros H1; apply fold_res_ok; [|apply wrap_root].
  intros v a Ha Hv; unfold unwrap_step.
  destruct (py_getattr v a) as [w|e] eqn:Eg.
  - simpl; eexists; split; [reflexivity|].
    destruct (is_none w); [exact Hv | exact (wrap_step _ v w a Hv Ha Eg)].
  - exfalso; apply (H1 v a e Hv); [|exact Eg].
    destruct Ha as [<- | [<- | []]]; simpl; tauto.
Qed.

Lemma build_search_of (m : pyval) :
  (forall a e, In a SEARCH_ATTRS -> py_getattr m a <> Raise e) ->
  exists s, build_search m = Ok s /\ Forall (search_of m) s.
Proof.
  intros H1; apply fold_res_ok; [|constructor; [left; reflexivity | constructor]].
  intros s a Ha Hs; unfold search_step.
  destruct (py_getattr m a) as [w|e] eqn:Eg; [|exfalso; exact (H1 a e Ha Eg)].
  simpl; eexists; split; [reflexivity|].
  destruct (negb (is_none w) && negb (py_is w m)); [|exact Hs].
  apply Forall_app; split; [exact Hs|].
  constructor; [right; exists a; split; assumption | constructor].
Qed.

Lemma scan_search_returns (s : list pyval) :
  (forall obj c e, In obj s -> In c CFG_ATTRS -> py_truth (_safe_getattr obj c) <> Raise e) ->
  exists found, scan_search s = Ok found.
Proof.
  intros H2; unfold scan_search.
  destruct (fold_res_ok (fun _ => True) scan_obj s []) as (r & E & _);
    [| exact I | exists r; exact E].
  intros a obj Hin _; unfold scan_obj.
  destruct (fold_res_ok (fun _ => True) (scan_cfg (type_name obj) obj)
              CFG_ATTRS (scan_attrs (type_name obj) obj a)) as (r & E & _);
    [| exact I | exists r; split; [exact E | exact I]].
  intros f c Hc _; unfold scan_cfg.
  destruct (py_truth (_safe_getattr obj c)) as [b|e] eqn:Et;
    [|exfalso; exact (H2 obj c e Hin Hc Et)].
  simpl; eexists; split; [reflexivity | exact I].
Qed.


Lemma flaky_model_wrap (v : pyval) : wrap_reach flaky_model v -> v = flaky_model \/ v = VNone.
Proof.
  intros H; induction H as [|v w a Hv IH Ha Eg]; [left; reflexivity|].
  destruct IH as [-> | ->]; right.
  - destruct Ha as [<- | [<- | []]]; vm_compute in Eg; inversion Eg; reflexivity.
  - simpl in Eg; inversion Eg; reflexivity.
Qed.


(** ** [model_name.py] *)

Lemma first_hit_inv {X : Type} (P : Z -> Prop) (f : X -> res (option Z))
  (l : list X) (z : Z) :
  (forall x z', In x l -> f x = Ok (Some z') -> P z') ->
  first_hit f l = Ok (Some z) -> P z.
Proof.
  induction l as [|x l IH]; simpl; intros Hf H; [discriminate|].
  destruct (f x) as [[z'|]|e] eqn:E; simpl in H; try discriminate.
  - inversion H; subst; exact (Hf x z (or_introl eq_refl) E).
  - apply IH; [intros y z' Hy; apply Hf; right; exact Hy | exact H].
Qed.

Lemma first_hit_ok {X : Type} (f : X -> res (option Z)) (l : list X) :
  (forall x, In x l -> exists r, f x = Ok r) -> exists r, first_hit f l = Ok r.
Proof.
  induction l as [|x l IH]; simpl; intros Hf; [eexists; reflexivity|].
  destruct (Hf x (or_introl eq_refl)) as [r E]; rewrite E; simpl.
  destruct r as [z|]; [eexists; reflexivity|].
  apply IH; intros y Hy; apply Hf; right; exact Hy.
Qed.

Lemma attr_dim_range (o : pyval) (a : string) (z : Z) :
  attr_dim o a = Ok (Some z) -> 64 <= z <= 32768.
Proof.
  unfold attr_dim; destruct (py_getattr o a); simpl; intros H; [|discriminate].
  inversion H; subst; eapply dim_hit_range; eassumption.
Qed.

Lemma obj_dim_range (o : pyval) (z : Z) :
  obj_dim o = Ok (Some z) -> 64 <= z <= 32768.
Proof.
  unfold obj_dim.
  destruct (first_hit (attr_dim o) DIM_ATTRS) as [[z'|]|e] eqn:E; simpl;
    intros H; try discriminate.
  - inversion H; subst.
    exact (first_hit_inv (fun z => 64 <= z <= 32768) _ _ _
             (fun a z' _ => attr_dim_range o a z') E).
  - change (first_hit (cfg_dim o) CFG_ATTRS = Ok (Some z)) in H.
    refine (first_hit_inv (fun z => 64 <= z <= 32768) _ _ _ _ H).
    intros c z' _; unfold cfg_dim.
    destruct (py_getattr o c) as [cfg|]; cbn -[first_hit]; [|discriminate].
    destruct (py_truth cfg) as [[|]|]; cbn -[first_hit]; try discriminate.
    apply (first_hit_inv (fun z => 64 <= z <= 32768)).
    intros a z'' _; apply attr_dim_range.
Qed.

Lemma find_dim_in_range (obj : pyval) (z : Z) :
  _find_dim obj = Ok (Some z) -> 64 <= z <= 32768.
Proof.
  unfold _find_dim; destruct (build_search obj) as [s|]; simpl; [|discriminate].
  apply (first_hit_inv (fun z => 64 <= z <= 32768)).
  intros o z' _; apply obj_dim_range.
Qed.

Lemma params_lines_shape (inner : pyval) :
  params_lines inner = [] \/ exists p, params_lines inner = [LParams p].
Proof.
  unfold params_lines; destruct (_count_params inner); [right; eauto | left; reflexivity].
Qed.

Lemma wrapped_details_shape (m : pyval) (a f : string)
  (lines : list detail_line) (cn : string) (dim : Z) :
  wrapped_details m a f = Ok (lines, cn, dim) ->
  exists inner, py_getattr_d m a m = Ok inner /\ cn = type_name inner /\
    dim = 0 /\ lines = ([LClass cn; LFormat f] ++ params_lines inner)%list.
Proof.
  unfold wrapped_details; destruct (py_getattr_d m a m) as [inner|]; simpl;
    intros H; [|discriminate].
  inversion H; subst; eexists; repeat split; reflexivity.
Qed.

Lemma params_lines_no_dim (inner : pyval) (d : Z) :
  ~ In (LDim d) (params_lines inner).
Proof.
  destruct (params_lines_shape inner) as [-> | [p ->]]; simpl;
    [tauto | intros [E | []]; discriminate].
Qed.

(** The structure of the MODEL branch of [_get_model_details]. *)
Lemma model_branch_shape (model : pyval) (lines : list detail_line)
  (cn : string) (dim : Z) :
  (let fmt := if str_contains "GGUF" (type_name model) then "gguf" else "standard" in
   inner <- unwrap_once model ["model"; "diffusion_model"] ;;
   let class_name := type_name inner in
   mt <- py_getattr inner "model_type" ;;
   let type_lines :=
     if is_none mt then []
     else match py_lookup mt "name" with
          | Ok (Some name) => [LType (TName name)]
          | _ => [LType (TValue mt)]
          end in
   found <- _find_dim inner ;;
   let dim := match found with
              | Some z => if Z.eqb z 0 then 0 else z
              | None => 0
              end in
   let dim_lines := if Z.eqb dim 0 then [] else [LDim dim] in
   Ok ([LClass class_name] ++ type_lines ++ dim_lines ++ params_lines inner
         ++ [LFormat fmt], class_name, dim)%list) = Ok (lines, cn, dim) ->
  exists inner type_lines,
    unwrap_once model ["model"; "diffusion_model"] = Ok inner /\
    cn = type_name inner /\
    (forall l, In l type_lines -> exists t, l = LType t) /\
    ((dim = 0 /\ _find_dim inner = Ok None) \/ _find_dim inner = Ok (Some dim)) /\
    lines = ([LClass cn] ++ type_lines ++ (if Z.eqb dim 0 then [] else [LDim dim])
             ++ params_lines inner
             ++ [LFormat (if str_contains "GGUF" (type_name model)
                          then "gguf" else "standard")])%list.
Proof.
  cbv zeta.
  destruct (unwrap_once model _) as [inner|]; simpl; [|discriminate].
  destruct (py_getattr inner "model_type") as [mt|]; simpl; [|discriminate].
  destruct (_find_dim inner) as [found|] eqn:F; simpl; [|discriminate].
  intros H; inversion H; subst; clear H.
  exists inner, (if is_none mt then []
            else match py_lookup mt "name" with
                 | Ok (Some name) => [LType (TName name)]
                 | _ => [LType (TValue mt)]
                 end).
  split; [reflexivity|]; split; [reflexivity|]; split.
  - intros l Hl; destruct (is_none mt); [destruct Hl|].
    destruct (py_lookup mt "name") as [[name|]|e];
      destruct Hl as [<- | []]; eexists; reflexivity.
  - split; [|reflexivity].
    destruct found as [z|].
    + pose proof (find_dim_in_range _ _ F).
      replace (z =? 0) with false by (symmetry; apply Z.eqb_neq; lia).
      right; exact F.
    + left; split; [reflexivity | exact F].
Qed.

Lemma details_dim_range (model : pyval) (lines : list detail_line)
  (cn : string) (dim : Z) :
  _get_model_details model = Ok (lines, cn, dim) ->
  (dim = 0 \/ 64 <= dim <= 32768) /\
  (forall d, In (LDim d) lines -> d = dim /\ dim <> 0) /\
  (dim <> 0 -> In (LDim dim) lines).
Proof.
  assert (Hw : forall m a f,
    wrapped_details m a f = Ok (lines, cn, dim) ->
    (dim = 0 \/ 64 <= dim <= 32768) /\
    (forall d, In (LDim d) lines -> d = dim /\ dim <> 0) /\
    (dim <> 0 -> In (LDim dim) lines)).
  { intros m a f H.
    destruct (wrapped_details_shape _ _ _ _ _ _ H) as (inner & _ & _ & -> & ->).
    split; [left; reflexivity|]; split; [|intros []; reflexivity].
    intros d [E | [E | Hd]]; try discriminate.
    exfalso; exact (params_lines_no_dim inner d Hd). }
  unfold _get_model_details.
  destruct (is_none model).
  { intros H; inversion H; subst.
    split; [left; reflexivity|]; split; [|intros []; reflexivity].
    intros d [E | []]; discriminate. }
  destruct (if String.eqb (type_name model) "CLIP" then Ok true
            else py_hasattr model "cond_stage_model") as [[|]|]; simpl;
    [exact (Hw _ _ _) | | discriminate].
  destruct (if String.eqb (type_name model) "VAE" then Ok true
            else py_hasattr model "first_stage_model") as [[|]|]; simpl;
    [exact (Hw _ _ _) | | discriminate].
  intros H.
  destruct (model_branch_shape _ _ _ _ H)
    as (inner & tl & _ & _ & Ht & Hd & ->).
  split.
  { destruct Hd as [[-> _] | Hd]; [left; reflexivity|].
    right; exact (find_dim_in_range _ _ Hd). }
  split.
  - intros d Hin.
    repeat rewrite in_app_iff in Hin.
    destruct Hin as [[E | []] | [Hin | [Hin | [Hin | [E | []]]]]];
      try discriminate.
    + destruct (Ht _ Hin) as [t E]; discriminate.
    + destruct (dim =? 0) eqn:Ez; [destruct Hin | destruct Hin as [E | []]].
      injection E as <-; split; [reflexivity | apply Z.eqb_neq; exact Ez].
    + exfalso; exact (params_lines_no_dim inner d Hin).
  - intros Hn; apply Z.eqb_neq in Hn; rewrite Hn.
    rewrite !in_app_iff; right; right; left; left; reflexivity.
Qed.

(** [_find_dim] returns either [None] or an [int] in [[64, 32768]]. *)
Theorem find_dim_range (obj : pyval) (z : Z) :
  _find_dim obj = Ok (Some z) -> 64 <= z <= 32768.
Proof. exact (find_dim_in_range obj z). Qed.

Lemma find_dim_range_witness :
  _find_dim (handle_of wan_model) = Ok (Some 1536) /\ 64 <= 1536 <= 32768.
Proof.
  split; [reflexivity|].
  apply (find_dim_range (handle_of wan_model)); reflexivity.
Defined.

(** [_find_dim] returns at the first hit: once the search set is built, an
    in-range direct attribute of [obj] itself is the result, whatever its
    configs and sub-modules hold (they are never read). *)
Theorem find_dim_direct_first (obj : pyval) (s : list pyval) (z : Z) :
  build_search obj = Ok s ->
  first_hit (attr_dim obj) DIM_ATTRS = Ok (Some z) ->
  _find_dim obj = Ok (Some z).
Proof.
  intros Hs Hd.
  destruct (build_search_head _ _ Hs) as [rest ->].
  unfold _find_dim; rewrite Hs; simpl.
  unfold obj_dim; rewrite Hd; reflexivity.
Qed.

Lemma find_dim_direct_first_witness :
  _find_dim wan_full = Ok (Some 1536).
Proof.
  apply (find_dim_direct_first wan_full [wan_full; dit_model]); reflexivity.
Defined.

(** The [dim] output of [OliModelInfo.execute] is [0] or in [[64, 32768]];
    the lines carry a [dim:] line exactly when [dim] is non-zero, and only
    with that value: a [dim:] line shows [dim] and [dim <> 0], and a
    non-zero [dim] is shown. *)
Theorem model_info_dim_output (model : pyval) (lines : list detail_line)
  (cn : string) (dim : Z) :
  model_info_execute model = Ok (lines, (cn, dim)) ->
  (dim = 0 \/ 64 <= dim <= 32768) /\
  (forall d, In (LDim d) lines -> d = dim /\ dim <> 0) /\
  (dim <> 0 -> In (LDim dim) lines).
Proof.
  unfold model_info_execute.
  destruct (_get_model_details model) as [[[l c] d]|] eqn:E; simpl;
    intros H; [|discriminate].
  inversion H; subst; exact (details_dim_range _ _ _ _ E).
Qed.

Lemma model_info_dim_output_witness :
  model_info_execute (handle_of wan_model) =
    Ok ([LClass "WanModel"; LDim 1536; LFormat "standard"], ("WanModel", 1536)) /\
  ((1536 = 0 \/ 64 <= 1536 <= 32768) /\
   (forall d, In (LDim d) [LClass "WanModel"; LDim 1536; LFormat "standard"] ->
      d = 1536 /\ 1536 <> 0) /\
   (1536 <> 0 -> In (LDim 1536) [LClass "WanModel"; LDim 1536; LFormat "standard"])).
Proof.
  split; [reflexivity|].
  exact (model_info_dim_output (handle_of wan_model)
           [LClass "WanModel"; LDim 1536; LFormat "standard"] "WanModel" 1536
           eq_refl).
Defined.

(** [None] yields the single line ["—"], no class and [dim] 0; every other
    input yields lines that start with its [class:] line. *)
Theorem details_first_line (model : pyval) (lines : list detail_line)
  (cn : string) (dim : Z) :
  _get_model_details model = Ok (lines, cn, dim) ->
  if is_none model then lines = [LDash] /\ cn = "" /\ dim = 0
  else exists rest, lines = LClass cn :: rest.
Proof.
  unfold _get_model_details.
  destruct (is_none model).
  { intros H; inversion H; subst; repeat split. }
  assert (Hw : forall m a f, wrapped_details m a f = Ok (lines, cn, dim) ->
                exists rest, lines = LClass cn :: rest).
  { intros m a f H.
    destruct (wrapped_details_shape _ _ _ _ _ _ H) as (inner & _ & _ & _ & ->).
    eexists; reflexivity. }
  destruct (if String.eqb (type_name model) "CLIP" then Ok true
            else py_hasattr model "cond_stage_model") as [[|]|]; simpl;
    [exact (Hw _ _ _) | | discriminate].
  destruct (if String.eqb (type_name model) "VAE" then Ok true
            else py_hasattr model "first_stage_model") as [[|]|]; simpl;
    [exact (Hw _ _ _) | | discriminate].
  intros H.
  destruct (model_branch_shape _ _ _ _ H) as (inner & tl & _ & _ & _ & _ & ->).
  eexists; reflexivity.
Qed.

Lemma details_first_line_witness :
  _get_model_details (handle_of wan_model) =
    Ok ([LClass "WanModel"; LDim 1536; LFormat "standard"], "WanModel", 1536) /\
  (exists rest, [LClass "WanModel"; LDim 1536; LFormat "standard"] =
                LClass "WanModel" :: rest).
Proof.
  split; [reflexivity|].
  exact (details_first_line (handle_of wan_model) _ _ _ eq_refl).
Defined.

(** ** [video_frame_limit.py]: further properties *)

Lemma dict_set_in_range (k : string) (v : Z) (d : found_dict) :
  64 <= v <= 32768 ->
  Forall (fun kv => 64 <= snd kv <= 32768) d ->
  Forall (fun kv => 64 <= snd kv <= 32768) (dict_set k v d).
Proof.
  intros Hv; induction d as [|[k' v'] d IH]; simpl; intros Hd.
  - constructor; [exact Hv | constructor].
  - inversion Hd; subst.
    destruct (String.eqb k k'); constructor; simpl; auto.
Qed.

Lemma scan_attrs_in_range (p : string) (obj : pyval) (d : found_dict) :
  Forall (fun kv => 64 <= snd kv <= 32768) d ->
  Forall (fun kv => 64 <= snd kv <= 32768) (scan_attrs p obj d).
Proof.
  unfold scan_attrs; generalize DIM_ATTRS as l; intros l; revert d.
  induction l as [|a l IH]; simpl; intros d Hd; [exact Hd|].
  apply IH; unfold scan_attr.
  destruct (dim_hit (_safe_getattr obj a)) as [z|] eqn:E; [|exact Hd].
  apply dict_set_in_range; [apply dim_hit_range in E; exact E | exact Hd].
Qed.

Lemma scan_search_in_range (search : list pyval) (found : found_dict) :
  scan_search search = Ok found ->
  Forall (fun kv => 64 <= snd kv <= 32768) found.
Proof.
  unfold scan_search; intros H.
  refine (fold_res_inv _ scan_obj search [] found _ (Forall_nil _) H).
  intros a obj a' Ha Hs; unfold scan_obj in Hs.
  refine (fold_res_inv _ _ CFG_ATTRS _ a' _ (scan_attrs_in_range _ _ _ Ha) Hs).
  intros b c b' Hb Hc; unfold scan_cfg in Hc.
  destruct (py_truth _) as [t|e]; simpl in Hc; [|discriminate].
  inversion Hc; subst; destruct t; [apply scan_attrs_in_range|]; exact Hb.
Qed.

(** [min(standards, key=...)] picks an element; before it every entry is
    strictly farther from the estimate, after it none is closer. *)
Lemma nearest_from_spec (est best : Z) (xs : list Z) :
  exists l1 l2,
    best :: xs = (l1 ++ nearest_from est best xs :: l2)%list /\
    Forall (fun s => Z.abs (nearest_from est best xs - est) < Z.abs (s - est)) l1 /\
    Forall (fun s => Z.abs (nearest_from est best xs - est) <= Z.abs (s - est)) l2.
Proof.
  revert best; induction xs as [|x xs IH]; intros best; simpl.
  - exists [], []; repeat split; constructor.
  - destruct (Z.abs (x - est) <? Z.abs (best - est)) eqn:E.
    + apply Z.ltb_lt in E.
      destruct (IH x) as (l1 & l2 & Hs & H1 & H2).
      exists (best :: l1), l2; rewrite Hs; split; [reflexivity|]; split; [|exact H2].
      constructor; [|exact H1].
      destruct l1 as [|y l1]; simpl in Hs; injection Hs as Hx Hl.
      * rewrite <- Hx; exact E.
      * subst y; inversion H1; subst; lia.
    + apply Z.ltb_ge in E.
      destruct (IH best) as (l1 & l2 & Hs & H1 & H2).
      destruct l1 as [|y l1]; simpl in Hs; injection Hs as Hx Hl.
      * exists [], (x :: l2); simpl; rewrite <- Hx, Hl.
        split; [reflexivity|]; split; [constructor|].
        constructor; [lia | rewrite Hx; exact H2].
      * subst y; exists (best :: x :: l1), l2; simpl.
        split; [do 2 f_equal; exact Hl|].
        inversion H1; subst; split; [|exact H2].
        constructor; [assumption|]; constructor; [lia | assumption].
Qed.

Lemma nearest_standard_le (est : Z) : nearest_standard est <= 8192.
Proof.
  unfold nearest_standard, STANDARDS.
  destruct (nearest_from_spec est 256
              [512; 768; 1024; 1280; 1536; 2048; 3072; 4096; 5120; 8192])
    as (l1 & l2 & Hs & _ & _).
  remember (nearest_from est 256
              [512; 768; 1024; 1280; 1536; 2048; 3072; 4096; 5120; 8192])
    as r eqn:Er; clear Er.
  assert (Hin : In r
              [256; 512; 768; 1024; 1280; 1536; 2048; 3072; 4096; 5120; 8192]).
  { rewrite Hs; apply in_or_app; right; left; reflexivity. }
  simpl in Hin; intuition lia.
Qed.

Lemma py_round_near (x : Q) :
  (- (1 # 2) <= x - inject_Z (py_round x) <= 1 # 2)%Q /\
  ((x - inject_Z (py_round x) == 1 # 2)%Q \/
   (x - inject_Z (py_round x) == - (1 # 2))%Q -> Z.even (py_round x) = true).
Proof.
  unfold py_round.
  pose proof (Qfloor_le x) as Hf1.
  pose proof (Qlt_floor x) as Hf2.
  set (f := Qfloor x) in *.
  rewrite inject_Z_plus in Hf2; change (inject_Z 1) with 1%Q in Hf2.
  destruct (Qlt_le_dec (x - inject_Z f) (1 # 2)) as [Hl | Hl].
  - split; [split; lra|].
    intros [E | E]; exfalso; lra.
  - destruct (Qeq_bool (x - inject_Z f) (1 # 2)) eqn:E.
    + apply Qeq_bool_eq in E.
      destruct (Z.even f) eqn:Ev.
      * split; [split; lra | intros _; exact Ev].
      * rewrite inject_Z_plus; change (inject_Z 1) with 1%Q.
        split; [split; lra|].
        intros _; rewrite Z.even_add, Ev; reflexivity.
    + apply Qeq_bool_neq in E.
      rewrite inject_Z_plus; change (inject_Z 1) with 1%Q.
      assert (1 # 2 < x - inject_Z f)%Q as Hs.
      { apply Qle_lteq in Hl; destruct Hl as [Hl | Hl]; [exact Hl|].
        exfalso; apply E; symmetry; exact Hl. }
      split; [split; lra|].
      intros [E' | E']; exfalso; lra.
Qed.

Lemma py_round_mono (x y : Q) : (x <= y)%Q -> py_round x <= py_round y.
Proof.
  intros Hxy.
  destruct (py_round_near x) as [[Hx1 Hx2] Tx].
  destruct (py_round_near y) as [[Hy1 Hy2] Ty].
  destruct (Z.le_gt_cases (py_round x) (py_round y)) as [Hle | Hgt]; [exact Hle|].
  exfalso.
  assert (inject_Z (py_round y) + 1 <= inject_Z (py_round x))%Q as Hz.
  { change 1%Q with (inject_Z 1); rewrite <- inject_Z_plus, <- Zle_Qle; lia. }
  assert (Ex : (x - inject_Z (py_round x) == - (1 # 2))%Q) by lra.
  assert (Ey : (y - inject_Z (py_round y) == 1 # 2)%Q) by lra.
  assert (Ed : (inject_Z (py_round x) == inject_Z (py_round y + 1))%Q).
  { rewrite inject_Z_plus; change (inject_Z 1) with 1%Q; lra. }
  unfold Qeq in Ed; simpl in Ed.
  assert (Ed' : py_round x = py_round y + 1) by lia.
  pose proof (Tx (or_intror Ex)) as Evx.
  pose proof (Ty (or_introl Ey)) as Evy.
  rewrite Ed', Z.even_add, Evy in Evx; discriminate.
Qed.

(** Shape of a successful run with a device present, in full. *)
Lemma execute_cuda_shape (w h : Z) (d fps sm : Q) (model : pyval) (tv : Z)
  (r : node_result) :
  execute w h d fps sm model (Some tv) = Ok r ->
  exists mn hd dl mpf,
    _get_model_info model = Ok (mn, hd, dl) /\
    (if hd then max_physical_detected (inject_Z tv * sm)%Q
                  (bytes_per_frame (spatial_tokens w h) (match hd with
                                    | Some x => x | None => 1 end))
     else max_physical_generic (inject_Z tv * sm)%Q
            (bytes_per_frame (spatial_tokens w h) FALLBACK_HIDDEN_DIM))
      = Ok mpf /\
    ~ (fps == 0)%Q /\
    let frames := snap (Z.min (requested_frames d fps) mpf) in
    let dur := (inject_Z (frames - 1) / fps)%Q in
    r = mkResult w h frames fps dur
          (UiInfo (inject_Z tv / inject_Z (1024 ^ 3))%Q
             (match hd with Some _ => label_of mn | None => "generic" end)
             (match hd with Some x => x | None => FALLBACK_HIDDEN_DIM end)
             (requested_frames d fps) frames dur).
Proof.
  unfold execute.
  destruct (_get_model_info model) as [[[mn hd] dl]|e]; simpl; [|discriminate].
  intros H.
  assert (Hfps : forall x y, py_div x fps = Ok y -> ~ (fps == 0)%Q /\ y = (x / fps)%Q).
  { intros x y; unfold py_div; destruct (Qeq_bool fps 0) eqn:E; simpl;
      [discriminate|].
    intros Hy; inversion Hy; split; [|reflexivity].
    intros Hq; apply Qeq_bool_iff in Hq; congruence. }
  destruct hd as [x|].
  - destruct (max_physical_detected _ _) as [mpf|e] eqn:E; simpl in H;
      [|discriminate].
    destruct (py_div _ fps) as [q|] eqn:Ed; simpl in H; [|discriminate].
    destruct (Hfps _ _ Ed) as [Hn ->].
    inversion H; subst; clear H.
    exists mn, (Some x), dl, mpf; repeat split; auto.
  - destruct (max_physical_generic _ _) as [mpf|e] eqn:E; simpl in H;
      [|discriminate].
    destruct (py_div _ fps) as [q|] eqn:Ed; simpl in H; [|discriminate].
    destruct (Hfps _ _ Ed) as [Hn ->].
    inversion H; subst; clear H.
    exists mn, None, dl, mpf; repeat split; auto.
Qed.

Lemma frames_in_budget_antitone (vb : Q) (b1 b2 k1 k2 : Z) :
  (0 <= vb)%Q -> 0 < b1 <= b2 ->
  frames_in_budget vb b1 = Ok k1 -> frames_in_budget vb b2 = Ok k2 ->
  k2 <= k1.
Proof.
  intros Hvb Hb; unfold frames_in_budget.
  rewrite !py_div_ok by (apply inject_Z_nonzero; lia); simpl.
  intros H1 H2; inversion H1; inversion H2; subst.
  assert (Hp1 : (0 < inject_Z b1)%Q)
    by (change 0%Q with (inject_Z 0); rewrite <- Zlt_Qlt; lia).
  assert (Hp2 : (0 < inject_Z b2)%Q)
    by (change 0%Q with (inject_Z 0); rewrite <- Zlt_Qlt; lia).
  assert (Hle : (inject_Z b1 <= inject_Z b2)%Q) by (rewrite <- Zle_Qle; lia).
  assert (H0 : (0 <= vb / inject_Z b2)%Q).
  { apply Qle_shift_div_l; [exact Hp2|]. rewrite Qmult_0_l; exact Hvb. }
  assert (Hq : (vb / inject_Z b2 <= vb / inject_Z b1)%Q).
  { apply Qle_shift_div_l; [exact Hp1|].
    apply (Qle_trans _ (vb / inject_Z b2 * inject_Z b2)).
    - apply Qmult_le_compat_nonneg; split; try apply Qle_refl; try assumption.
      apply Qlt_le_weak, Hp1.
    - apply Qle_lteq; right; field.
      apply pos_nonzero, Hp2. }
  pose proof (py_trunc_mono _ _ Hq); lia.
Qed.

Lemma requested_frames_mono (d1 fps1 d2 fps2 : Q) :
  (d1 * fps1 <= d2 * fps2)%Q ->
  requested_frames d1 fps1 <= requested_frames d2 fps2.
Proof.
  intros H; unfold requested_frames.
  pose proof (py_round_mono _ _ H); lia.
Qed.

Lemma py_round_nonneg (x : Q) : (0 <= x)%Q -> 0 <= py_round x.
Proof.
  intros Hx; destruct (py_round_near x) as [[_ H] _].
  destruct (Z.le_gt_cases 0 (py_round x)) as [Hle | Hlt]; [exact Hle|].
  exfalso.
  assert (inject_Z (py_round x) <= -1)%Q.
  { change (-1)%Q with (inject_Z (-1)); rewrite <- Zle_Qle; lia. }
  lra.
Qed.

(** [snap(f)] is the largest frame count of the form [4k + 1] not above
    [f]. *)
Theorem snap_greatest_aligned (f : Z) :
  1 <= f ->
  (snap f - 1) mod TEMPORAL_COMPRESSION = 0 /\ 1 <= snap f <= f /\
  forall n, 1 <= n <= f -> (n - 1) mod TEMPORAL_COMPRESSION = 0 -> n <= snap f.
Proof.
  intros Hf.
  split; [apply snap_aligned|]; split; [split; [apply snap_ge1 | apply snap_le, Hf]|].
  intros n Hn Hm; unfold snap, TEMPORAL_COMPRESSION in *.
  pose proof (Z.div_mod (n - 1) 4 ltac:(lia)) as Hd.
  pose proof (Z.div_le_mono (n - 1) (f - 1) 4 ltac:(lia) ltac:(lia)).
  lia.
Qed.

Lemma snap_greatest_aligned_witness :
  1 <= 10 /\
  ((snap 10 - 1) mod TEMPORAL_COMPRESSION = 0 /\ 1 <= snap 10 <= 10 /\
   forall n, 1 <= n <= 10 -> (n - 1) mod TEMPORAL_COMPRESSION = 0 -> n <= snap 10).
Proof. split; [lia | apply (snap_greatest_aligned 10); lia]. Defined.

(** A hidden dimension returned by [_get_model_info] lies in
    [[64, 32768]]: a found one by the range test, an estimated one because
    the standard widths span [[256, 8192]]. *)
Theorem model_info_dim_range (model : pyval) (mn : option string) (d : Z)
  (dl : list debug_line) :
  _get_model_info model = Ok (mn, Some d, dl) -> 64 <= d <= 32768.
Proof.
  unfold _get_model_info.
  destruct (is_none model); [intros H; discriminate|].
  destruct (unwrap model) as [m|e]; simpl; [|discriminate].
  destruct (build_search m) as [s|e]; simpl; [|discriminate].
  destruct (scan_search s) as [found|e] eqn:E; simpl; [|discriminate].
  apply scan_search_in_range in E.
  destruct found as [|[k v] found'].
  - unfold param_fallback.
    destruct (param_count m) as [n|]; [|discriminate].
    destruct (0 <=? n); [|discriminate].
    intros H; inversion H; subst.
    match goal with
    | |- 64 <= nearest_standard ?e <= _ =>
        pose proof (nearest_standard_ge e); pose proof (nearest_standard_le e)
    end; lia.
  - intros H; inversion H; subst. inversion E; subst; simpl in *; lia.
Qed.

Lemma model_info_dim_range_witness :
  _get_model_info (handle_of unet_model) =
    Ok (Some "UNetLike", Some 2048, [DLEstimate 2048]) /\ 64 <= 2048 <= 32768.
Proof.
  split; [vm_compute; reflexivity|].
  apply (model_info_dim_range (handle_of unet_model) (Some "UNetLike") 2048
           [DLEstimate 2048]); vm_compute; reflexivity.
Defined.

(** [min(standards, key=lambda x: abs(x - est))] returns a standard width
    of least distance to [est], the first one on a tie. *)
Theorem nearest_standard_first_nearest (est : Z) :
  exists l1 l2,
    STANDARDS = (l1 ++ nearest_standard est :: l2)%list /\
    Forall (fun s => Z.abs (nearest_standard est - est) < Z.abs (s - est)) l1 /\
    Forall (fun s => Z.abs (nearest_standard est - est) <= Z.abs (s - est)) l2.
Proof.
  unfold nearest_standard, STANDARDS; apply nearest_from_spec.
Qed.

(** [round(duration * fps)] is within half a frame of [duration * fps],
    ties going to the even count, so [requested_frames - 1] is that
    rounding for a non-negative product. *)
Theorem requested_frames_rounding (d fps : Q) :
  (0 <= d * fps)%Q ->
  (- (1 # 2) <= d * fps - inject_Z (requested_frames d fps - 1) <= 1 # 2)%Q /\
  ((d * fps - inject_Z (requested_frames d fps - 1) == 1 # 2)%Q \/
   (d * fps - inject_Z (requested_frames d fps - 1) == - (1 # 2))%Q ->
   Z.even (requested_frames d fps - 1) = true).
Proof.
  intros H.
  assert (E : requested_frames d fps - 1 = py_round (d * fps)%Q).
  { unfold requested_frames; pose proof (py_round_nonneg _ H); lia. }
  rewrite E; apply py_round_near.
Qed.

Lemma requested_frames_rounding_witness :
  (0 <= (5 # 2) * 1)%Q /\ requested_frames (5 # 2) 1 = 3 /\
  ((- (1 # 2) <= (5 # 2) * 1 - inject_Z (requested_frames (5 # 2) 1 - 1) <= 1 # 2)%Q /\
   (((5 # 2) * 1 - inject_Z (requested_frames (5 # 2) 1 - 1) == 1 # 2)%Q \/
    ((5 # 2) * 1 - inject_Z (requested_frames (5 # 2) 1 - 1) == - (1 # 2))%Q ->
    Z.even (requested_frames (5 # 2) 1 - 1) = true)).
Proof.
  split; [vm_compute; discriminate|]; split; [reflexivity|].
  apply requested_frames_rounding; vm_compute; discriminate.
Defined.

(** With the model, frame size, margin and device fixed, asking for more
    frames ([duration * fps] larger) never yields fewer capped frames. *)
Theorem capped_frames_mono_request (w h : Z) (d1 fps1 d2 fps2 sm : Q)
  (model : pyval) (tv : Z) (r1 r2 : node_result) :
  (d1 * fps1 <= d2 * fps2)%Q ->
  execute w h d1 fps1 sm model (Some tv) = Ok r1 ->
  execute w h d2 fps2 sm model (Some tv) = Ok r2 ->
  r_frames r1 <= r_frames r2.
Proof.
  intros Hq H1 H2.
  apply execute_cuda_inv in H1; apply execute_cuda_inv in H2.
  destruct H1 as (mn1 & hd1 & dl1 & m1 & I1 & M1 & _ & ->).
  destruct H2 as (mn2 & hd2 & dl2 & m2 & I2 & M2 & _ & ->).
  rewrite I1 in I2; inversion I2; subst.
  rewrite M1 in M2; inversion M2; subst.
  apply snap_mono.
  pose proof (requested_frames_mono _ _ _ _ Hq); lia.
Qed.

Lemma capped_frames_mono_request_witness :
  (1 * 24 <= 5 * 24)%Q /\
  exists r1 r2,
    execute 832 480 1 24 (9 # 10) (handle_of wan_model) (Some (24 * GiB)) = Ok r1 /\
    execute 832 480 5 24 (9 # 10) (handle_of wan_model) (Some (24 * GiB)) = Ok r2 /\
    r_frames r1 <= r_frames r2.
Proof.
  split; [vm_compute; discriminate|].
  destruct (execute 832 480 1 24 (9 # 10) (handle_of wan_model) (Some (24 * GiB)))
    as [r1|e] eqn:E1; [|vm_compute in E1; discriminate].
  destruct (execute 832 480 5 24 (9 # 10) (handle_of wan_model) (Some (24 * GiB)))
    as [r2|e] eqn:E2; [|vm_compute in E2; discriminate].
  exists r1, r2; split; [reflexivity|]; split; [reflexivity|].
  apply (capped_frames_mono_request 832 480 1 24 5 24 (9 # 10)
           (handle_of wan_model) (24 * GiB) r1 r2);
    [vm_compute; discriminate | exact E1 | exact E2].
Defined.

(** For two models whose width is detected, on the same valid request, the
    wider model never gets more frames. *)
Theorem capped_frames_antitone_dim (w h : Z) (d fps sm : Q) (m1 m2 : pyval)
  (tv : Z) (mn1 mn2 : option string) (d1 d2 : Z) (dl1 dl2 : list debug_line)
  (r1 r2 : node_result) :
  valid_request w h d fps sm (Some tv) ->
  _get_model_info m1 = Ok (mn1, Some d1, dl1) ->
  _get_model_info m2 = Ok (mn2, Some d2, dl2) ->
  d1 <= d2 ->
  execute w h d fps sm m1 (Some tv) = Ok r1 ->
  execute w h d fps sm m2 (Some tv) = Ok r2 ->
  r_frames r2 <= r_frames r1.
Proof.
  intros (Hw & Hh & _ & _ & Hsm & _ & Htv) I1 I2 Hd H1 H2.
  apply execute_cuda_inv in H1; apply execute_cuda_inv in H2.
  destruct H1 as (mn1' & hd1 & dl1' & k1 & I1' & M1 & _ & ->).
  destruct H2 as (mn2' & hd2 & dl2' & k2 & I2' & M2 & _ & ->).
  rewrite I1 in I1'; inversion I1'; subst.
  rewrite I2 in I2'; inversion I2'; subst.
  pose proof (model_info_dim_ge64 _ _ _ _ I1) as Hd1.
  pose proof (bytes_per_frame_pos w h d1 Hw Hh ltac:(lia)) as Hb1.
  assert (Hb : bytes_per_frame (spatial_tokens w h) d1 <=
               bytes_per_frame (spatial_tokens w h) d2).
  { pose proof (spatial_tokens_pos w h Hw Hh).
    unfold bytes_per_frame, TENSOR_COPIES; nia. }
  assert (Hvb : (0 <= inject_Z tv * sm)%Q).
  { apply Qmult_le_0_compat; [|apply Qlt_le_weak, Hsm].
    change 0%Q with (inject_Z 0); rewrite <- Zle_Qle; exact Htv. }
  unfold max_physical_detected in M1, M2.
  destruct (frames_in_budget _ (bytes_per_frame _ d1)) as [f1|] eqn:F1;
    simpl in M1; [|discriminate].
  destruct (frames_in_budget _ (bytes_per_frame _ d2)) as [f2|] eqn:F2;
    simpl in M2; [|discriminate].
  inversion M1; inversion M2; subst.
  pose proof (frames_in_budget_antitone _ _ _ _ _ Hvb (conj Hb1 Hb) F1 F2).
  apply snap_mono; unfold TEMPORAL_COMPRESSION; lia.
Qed.

Lemma capped_frames_antitone_dim_witness :
  exists r1 r2,
    execute 1280 720 10 24 (9 # 10) (handle_of wan_model) (Some (24 * GiB)) = Ok r1 /\
    execute 1280 720 10 24 (9 # 10) (handle_of dit_model) (Some (24 * GiB)) = Ok r2 /\
    r_frames r2 <= r_frames r1.
Proof.
  destruct (execute 1280 720 10 24 (9 # 10) (handle_of wan_model) (Some (24 * GiB)))
    as [r1|e] eqn:E1; [|vm_compute in E1; discriminate].
  destruct (execute 1280 720 10 24 (9 # 10) (handle_of dit_model) (Some (24 * GiB)))
    as [r2|e] eqn:E2; [|vm_compute in E2; discriminate].
  exists r1, r2; split; [reflexivity|]; split; [reflexivity|].
  apply (capped_frames_antitone_dim 1280 720 10 24 (9 # 10)
           (handle_of wan_model) (handle_of dit_model) (24 * GiB)
           (Some "WanModel") (Some "DiTModel") 1536 2048
           [DLHit "WanModel.hidden_size" 1536]
           [DLHit "DiTModel.config.hidden_size" 2048;
            DLHit "DiTTransformer.hidden_size" 1536]
           r1 r2);
    first [solve_valid | vm_compute; reflexivity | lia | exact E1 | exact E2].
Defined.

(** ** [nodes.py] and [prompt_line_pick.py] *)

Lemma split_nl_nonempty (s : string) : split_nl s <> [].
Proof.
  destruct s as [|c s]; simpl; [discriminate|].
  destruct (Ascii.eqb c "010"%char); [discriminate|].
  destruct (split_nl s); discriminate.
Qed.

Lemma lstrip_shape (s : string) :
  lstrip s = "" \/ exists c r, lstrip s = String c r /\ is_space c = false.
Proof.
  induction s as [|c s IH]; simpl; [left; reflexivity|].
  destruct (is_space c) eqn:E; [exact IH | right; eauto].
Qed.

Lemma lstrip_noop (s : string) :
  (s = "" \/ exists c r, s = String c r /\ is_space c = false) -> lstrip s = s.
Proof.
  intros [-> | (c & r & -> & E)]; simpl; [reflexivity | rewrite E; reflexivity].
Qed.

Lemma rstrip_head (c : ascii) (r : string) :
  is_space c = false -> exists r', rstrip (String c r) = String c r'.
Proof.
  intros E; simpl; rewrite E, andb_false_r; eauto.
Qed.

Lemma rstrip_idem (s : string) : rstrip (rstrip s) = rstrip s.
Proof.
  induction s as [|c s IH]; simpl; [reflexivity|].
  destruct (String.eqb (rstrip s) "" && is_space c) eqn:E; [reflexivity|].
  simpl; rewrite IH, E; reflexivity.
Qed.

(** [s.strip().strip() == s.strip()] *)
Lemma py_strip_idem (s : string) : py_strip (py_strip s) = py_strip s.
Proof.
  unfold py_strip.
  rewrite (lstrip_noop (rstrip (lstrip s))); [apply rstrip_idem|].
  destruct (lstrip_shape s) as [-> | (c & r & -> & E)]; [left; reflexivity|].
  right; destruct (rstrip_head c r E) as [r' ->]; eauto.
Qed.

Lemma pick_index_range (H : string -> Z) (key : string) (lines : list string) :
  lines <> [] ->
  0 <= pick_index H key lines < Z.of_nat (List.length lines).
Proof.
  intros Hl; unfold pick_index; apply Z.mod_pos_bound.
  destruct lines; [congruence | simpl; lia].
Qed.

Lemma pick_nth (H : string -> Z) (key : string) (lines : list string) :
  lines <> [] ->
  nth_error lines (Z.to_nat (pick_index H key lines)) =
    Some (nth (Z.to_nat (pick_index H key lines)) lines "").
Proof.
  intros Hl; apply nth_error_nth'.
  pose proof (pick_index_range H key lines Hl); lia.
Qed.

Lemma clean_lines_true_in (text t : string) :
  In t (clean_lines true text) -> t <> "" /\ py_strip t = t.
Proof.
  unfold clean_lines; intros Hin.
  apply in_map_iff in Hin; destruct Hin as (l & <- & Hl).
  apply filter_In in Hl; destruct Hl as [_ Hne].
  split; [|apply py_strip_idem].
  intros E; rewrite E in Hne; discriminate.
Qed.

Lemma clean_lines_true_nil (text : string) :
  clean_lines true text = [] <-> Forall (fun l => py_strip l = "") (split_nl text).
Proof.
  unfold clean_lines; generalize (split_nl text) as ls; intros ls.
  induction ls as [|l ls IH]; simpl; [split; auto|].
  destruct (String.eqb (py_strip l) "") eqn:E; simpl.
  - apply String.eqb_eq in E; rewrite IH; split; [intros H; constructor; auto|].
    intros H; inversion H; auto.
  - split; [discriminate|]; intros H; inversion H; subst.
    apply String.eqb_neq in E; contradiction.
Qed.

(** [PromptLinePick.execute] returns [("", 0)] when no line is left;
    otherwise [index] is in [[0, len(lines))] and the text is
    [lines[index]]: the [lines[index]] of the source never raises. *)
Theorem prompt_line_pick_in_range (H : string -> Z) (text : string)
  (seed channel : Z) (rel : bool) (t : string) (i : Z) :
  prompt_line_pick H text seed channel rel = (t, i) ->
  (clean_lines rel text = [] /\ t = "" /\ i = 0) \/
  (0 <= i < Z.of_nat (List.length (clean_lines rel text)) /\
   nth_error (clean_lines rel text) (Z.to_nat i) = Some t).
Proof.
  unfold prompt_line_pick.
  destruct (clean_lines rel text) as [|x l] eqn:E; intros Hp.
  - left; inversion Hp; auto.
  - right; inversion Hp; subst.
    split; [apply pick_index_range | apply pick_nth]; discriminate.
Qed.

Lemma prompt_line_pick_in_range_witness :
  prompt_line_pick key_length three_lines 12 3 true = ("y", 1) /\
  ((clean_lines true three_lines = [] /\ "y" = "" /\ 1 = 0) \/
   (0 <= 1 < Z.of_nat (List.length (clean_lines true three_lines)) /\
    nth_error (clean_lines true three_lines) (Z.to_nat 1) = Some "y")).
Proof.
  split; [vm_compute; reflexivity|].
  apply (prompt_line_pick_in_range key_length
           three_lines 12 3 true); vm_compute; reflexivity.
Defined.

(** With [remove_empty_lines] the empty result [("", 0)] happens exactly
    when every line of the input is blank; otherwise the picked text is
    non-blank and already stripped. *)
Theorem prompt_line_pick_nonblank (H : string -> Z) (text : string)
  (seed channel : Z) (t : string) (i : Z) :
  prompt_line_pick H text seed channel true = (t, i) ->
  (Forall (fun l => py_strip l = "") (split_nl text) -> t = "" /\ i = 0) /\
  (~ Forall (fun l => py_strip l = "") (split_nl text) -> t <> "" /\ py_strip t = t).
Proof.
  intros Hp.
  destruct (prompt_line_pick_in_range H text seed channel true t i Hp)
    as [(E & -> & ->) | (_ & Hn)].
  - split; [intros _; split; reflexivity|].
    intros Hf; exfalso; apply Hf; apply clean_lines_true_nil; exact E.
  - split.
    + intros Hf; apply clean_lines_true_nil in Hf; rewrite Hf in Hn.
      destruct (Z.to_nat i); discriminate.
    + intros _; apply (clean_lines_true_in text); eapply nth_error_In; exact Hn.
Qed.

Lemma prompt_line_pick_nonblank_witness :
  prompt_line_pick key_length padded_lines 7 0 true = ("b", 1) /\
  ((Forall (fun l => py_strip l = "") (split_nl padded_lines) -> "b" = "" /\ 1 = 0) /\
   (~ Forall (fun l => py_strip l = "") (split_nl padded_lines) ->
      "b" <> "" /\ py_strip "b" = "b")).
Proof.
  split; [vm_compute; reflexivity|].
  apply (prompt_line_pick_nonblank key_length padded_lines 7 0); vm_compute; reflexivity.
Defined.

(** Without [remove_empty_lines] every piece of [text.split("\n")] is kept
    (stripped), so the [("", 0)] fallback is unreachable: the index ranges
    over all pieces and may select a blank one. *)
Theorem prompt_line_pick_keep_all (H : string -> Z) (text : string)
  (seed channel : Z) (t : string) (i : Z) :
  prompt_line_pick H text seed channel false = (t, i) ->
  0 <= i < Z.of_nat (List.length (split_nl text)) /\
  t = py_strip (nth (Z.to_nat i) (split_nl text) "").
Proof.
  intros Hp.
  destruct (prompt_line_pick_in_range H text seed channel false t i Hp)
    as [(E & _ & _) | (Hr & Hn)].
  - exfalso; unfold clean_lines in E; apply map_eq_nil in E.
    exact (split_nl_nonempty text E).
  - unfold clean_lines in Hr, Hn; rewrite length_map in Hr.
    split; [exact Hr|].
    rewrite nth_error_map in Hn.
    rewrite (nth_error_nth' (split_nl text) "") in Hn by lia.
    simpl in Hn; inversion Hn; reflexivity.
Qed.

Lemma prompt_line_pick_keep_all_witness :
  prompt_line_pick (fun _ => 4) gap_lines 0 0 false = ("", 1) /\
  (0 <= 1 < Z.of_nat (List.length (split_nl gap_lines)) /\ "" = py_strip (nth (Z.to_nat 1) (split_nl gap_lines) "")).
Proof.
  split; [vm_compute; reflexivity|].
  apply (prompt_line_pick_keep_all (fun _ => 4) gap_lines 0 0); vm_compute; reflexivity.
Defined.

(** [OliPromptLinePick] returns the picked line on both outputs, for any
    [unique_id]; and with [unique_id == str(channel)] it picks the same line
    as [PromptLinePick] with that channel (both give [""] on an empty
    list). *)
Theorem oli_pick_agrees (H : string -> Z) (text : string) (seed channel : Z)
  (rel : bool) :
  (forall uid, fst (oli_prompt_line_pick H text seed rel uid) =
               snd (oli_prompt_line_pick H text seed rel uid)) /\
  oli_prompt_line_pick H text seed rel (Some (py_str_int channel)) =
    (fst (prompt_line_pick H text seed channel rel),
     fst (prompt_line_pick H text seed channel rel)).
Proof.
  split.
  - intros uid; unfold oli_prompt_line_pick.
    destruct (clean_lines rel text); reflexivity.
  - unfold oli_prompt_line_pick, prompt_line_pick; simpl.
    destruct (clean_lines rel text); reflexivity.
Qed.

(** ** [oli_lora_loader.py] *)

Lemma str_length_app (a b : string) :
  (String.length (a ++ b) = String.length a + String.length b)%nat.
Proof. induction a as [|c a IH]; simpl; [reflexivity | rewrite IH; reflexivity]. Qed.

Lemma substring_whole (s : string) : substring 0 (String.length s) s = s.
Proof. induction s as [|c s IH]; simpl; [reflexivity | rewrite IH; reflexivity]. Qed.

Lemma substring_app_l (a b : string) : substring 0 (String.length a) (a ++ b) = a.
Proof.
  induction a as [|c a IH]; simpl; [destruct b; reflexivity | rewrite IH; reflexivity].
Qed.

Lemma substring_app_r (a b : string) :
  substring (String.length a) (String.length b) (a ++ b) = b.
Proof.
  induction a as [|c a IH]; [apply substring_whole|].
  simpl; destruct (String.length b); exact IH.
Qed.

Lemma substring_split (s : string) (n : nat) :
  (n <= String.length s)%nat ->
  (substring 0 n s ++ substring n (String.length s - n) s)%string = s.
Proof.
  revert n; induction s as [|c s IH]; intros n Hn; simpl in *.
  - destruct n; [reflexivity | lia].
  - destruct n as [|n]; simpl.
    + rewrite substring_whole; reflexivity.
    + rewrite IH by lia; reflexivity.
Qed.

(** [k.endswith(sfx)] holds exactly when [k = base + sfx], and then
    [k[:-len(sfx)]] is [base]. *)
Lemma endswith_app (k sfx : string) :
  py_endswith k sfx = true <-> exists b, k = (b ++ sfx)%string.
Proof.
  unfold py_endswith; split.
  - intros H; apply andb_true_iff in H; destruct H as [Hl He].
    apply Nat.leb_le in Hl; apply String.eqb_eq in He.
    exists (substring 0 (String.length k - String.length sfx) k).
    pose proof (substring_split k (String.length k - String.length sfx)
                  ltac:(lia)) as Hs.
    replace (String.length k - (String.length k - String.length sfx))%nat
      with (String.length sfx) in Hs by lia.
    rewrite He in Hs; exact (eq_sym Hs).
  - intros [b ->]; rewrite str_length_app.
    replace (String.length b + String.length sfx - String.length sfx)%nat
      with (String.length b) by lia.
    rewrite substring_app_r, String.eqb_refl, andb_true_r.
    apply Nat.leb_le; lia.
Qed.

Lemma drop_last_app (b sfx : string) :
  drop_last (String.length sfx) (b ++ sfx) = b.
Proof.
  unfold drop_last; rewrite str_length_app.
  replace (String.length b + String.length sfx - String.length sfx)%nat
    with (String.length b) by lia.
  apply substring_app_l.
Qed.

Lemma app_suffix_cases (b1 s1 b2 s2 : string) :
  (b1 ++ s1)%string = (b2 ++ s2)%string ->
  (String.length s1 <= String.length s2)%nat -> exists c, s2 = (c ++ s1)%string.
Proof.
  revert b1; induction b2 as [|x b2 IH]; intros b1 E Hl; simpl in E.
  - exists b1; symmetry; exact E.
  - destruct b1 as [|y b1]; simpl in E.
    + exfalso; subst s1; simpl in Hl; rewrite str_length_app in Hl; lia.
    + injection E as _ E; exact (IH b1 E Hl).
Qed.

Lemma app_cancel_r (b1 b2 s : string) :
  (b1 ++ s)%string = (b2 ++ s)%string -> b1 = b2.
Proof.
  intros E; rewrite <- (drop_last_app b1 s), <- (drop_last_app b2 s), E.
  reflexivity.
Qed.

Lemma base_of_spec (l : list string) (k b : string) :
  suffix_free l = true ->
  base_of l k = Some b <-> exists sfx, In sfx l /\ k = (b ++ sfx)%string.
Proof.
  intros Hf.
  assert (Hu : forall s1 s2, In s1 l -> In s2 l ->
                 py_endswith s2 s1 = true -> s1 = s2).
  { intros s1 s2 H1 H2 He.
    unfold suffix_free in Hf; rewrite forallb_forall in Hf.
    specialize (Hf s1 H1); rewrite forallb_forall in Hf.
    specialize (Hf s2 H2); rewrite He in Hf; simpl in Hf.
    apply String.eqb_eq; exact Hf. }
  clear Hf; induction l as [|s l IH]; simpl.
  { split; [discriminate | intros (sfx & [] & _)]. }
  assert (IH' : base_of l k = Some b <-> exists sfx, In sfx l /\ k = (b ++ sfx)%string).
  { apply IH; intros s1 s2 H1 H2; apply Hu; right; assumption. }
  destruct (py_endswith k s) eqn:E.
  - destruct (proj1 (endswith_app k s) E) as [b' ->].
    rewrite drop_last_app; split.
    + intros H; inversion H; subst; exists s; split; [left|]; reflexivity.
    + intros (sfx & Hin & Heq).
      assert (sfx = s) as ->.
      { destruct (Nat.le_ge_cases (String.length sfx) (String.length s)) as [Hl | Hl].
        - destruct (app_suffix_cases b sfx b' s (eq_sym Heq) Hl) as [c Hc].
          apply Hu; [exact Hin | left; reflexivity |].
          apply endswith_app; exists c; exact Hc.
        - destruct (app_suffix_cases b' s b sfx Heq Hl) as [c Hc].
          symmetry; apply Hu; [left; reflexivity | exact Hin |].
          apply endswith_app; exists c; exact Hc. }
      f_equal; exact (app_cancel_r _ _ _ Heq).
  - rewrite IH'; split.
    + intros (sfx & Hin & Heq); exists sfx; split; [right|]; assumption.
    + intros (sfx & [<- | Hin] & Heq); [|exists sfx; split; assumption].
      exfalso; assert (py_endswith k s = true) as E'
        by (apply endswith_app; exists b; exact Heq).
      congruence.
Qed.

Lemma set_add_str_in (x y : string) (s : list string) :
  In y (set_add_str x s) <-> In y s \/ y = x.
Proof.
  unfold set_add_str; destruct (existsb (String.eqb x) s) eqn:E.
  - apply existsb_exists in E; destruct E as (z & Hz & Ez).
    apply String.eqb_eq in Ez; subst z.
    split; [tauto|]; intros [H | ->]; assumption.
  - rewrite in_app_iff; simpl; split; intros [H | H]; try tauto.
    + destruct H as [<- | []]; right; reflexivity.
    + right; left; symmetry; exact H.
Qed.

Lemma set_add_str_nodup (x : string) (s : list string) :
  NoDup s -> NoDup (set_add_str x s).
Proof.
  intros Hs; unfold set_add_str.
  destruct (existsb (String.eqb x) s) eqn:E; [exact Hs|].
  apply NoDup_app; [exact Hs | repeat constructor; simpl; tauto |].
  intros y Hy [Ey | []]; subst y.
  assert (existsb (String.eqb x) s = true) as E'
    by (apply existsb_exists; exists x; split; [exact Hy | apply String.eqb_refl]).
  congruence.
Qed.

Lemma base_keys_gen (ks : list string) (acc : list string) (b : string) :
  In b (fold_left (fun acc k => match base_of LORA_SUFFIXES k with
                                | Some b => set_add_str b acc
                                | None => acc
                                end) ks acc) <->
  In b acc \/ exists k, In k ks /\ base_of LORA_SUFFIXES k = Some b.
Proof.
  revert acc; induction ks as [|k ks IH]; intros acc; cbn [fold_left In].
  - split; [tauto | intros [H | (k & [] & _)]; exact H].
  - rewrite IH; split.
    + intros [H | (k' & Hk' & Eb)]; [|right; exists k'; tauto].
      destruct (base_of LORA_SUFFIXES k) as [b'|] eqn:Eb; [|tauto].
      apply set_add_str_in in H; destruct H as [H | ->]; [tauto|].
      right; exists k; tauto.
    + intros [H | (k' & [<- | Hk'] & Eb)].
      * left; destruct (base_of LORA_SUFFIXES k); [apply set_add_str_in|]; tauto.
      * left; rewrite Eb; apply set_add_str_in; right; reflexivity.
      * right; exists k'; tauto.
Qed.

Lemma base_keys_nodup_gen (ks : list string) (acc : list string) :
  NoDup acc ->
  NoDup (fold_left (fun acc k => match base_of LORA_SUFFIXES k with
                                 | Some b => set_add_str b acc
                                 | None => acc
                                 end) ks acc).
Proof.
  revert acc; induction ks as [|k ks IH]; intros acc Ha; cbn [fold_left]; [exact Ha|].
  apply IH; destruct (base_of LORA_SUFFIXES k); [apply set_add_str_nodup|]; exact Ha.
Qed.

Lemma compat_get_set (k f : string) (v : option bool) (d : list (string * option bool)) :
  compat_get k (compat_set f v d) = if String.eqb k f then Some v else compat_get k d.
Proof.
  induction d as [|[k' v'] d IH]; simpl.
  - reflexivity.
  - destruct (String.eqb f k') eqn:E1; simpl.
    + apply String.eqb_eq in E1; subst k'; destruct (String.eqb k f); reflexivity.
    + rewrite IH; destruct (String.eqb k k') eqn:E2, (String.eqb k f) eqn:E3; try reflexivity.
      apply String.eqb_eq in E2; apply String.eqb_eq in E3; subst.
      rewrite String.eqb_refl in E1; discriminate.
Qed.

Section LoadLorasFacts.

Variables M C : Type.
Variable load_lora : M -> option C -> string -> Q -> Q -> M * option C.
Variable full_path : string -> option string.
Variable read_keys : string -> option (list string).
Variable keymap_of : M -> res (list string).

Let row_step' := row_step load_lora full_path read_keys keymap_of.
Let stack_step' := stack_step load_lora.

Lemma row_step_cases (st : loader_state M C) (key : string) (v : kw_value) :
  let st' := row_step' st (key, v) in
  (ls_stack st' = ls_stack st /\ ls_model st' = ls_model st /\
   ls_clip st' = ls_clip st /\
   (ls_compat st' = ls_compat st \/
    exists f o, o <> Some true /\ ls_compat st' = compat_set f o (ls_compat st)))
  \/
  (exists f sm sc st2,
     v = KwRow (Some true) (Some (Some f)) (Some sm) st2 /\
     String.prefix "LORA_" (str_upper key) = true /\
     f <> "" /\ f <> "None" /\ ~ (sm == 0 /\ sc == 0)%Q /\
     sc = match ls_clip st with
          | None => 0%Q
          | Some _ => match st2 with Some (Some x) => x | _ => sm end
          end /\
     ls_stack st' = (ls_stack st ++ [(f, sm, sc)])%list /\
     ls_compat st' = compat_set f (Some true) (ls_compat st) /\
     match ls_model st with
     | Some m => ls_model st' = Some (fst (load_lora m (ls_clip st) f sm sc)) /\
                 ls_clip st' = snd (load_lora m (ls_clip st) f sm sc)
     | None => ls_model st' = None /\ ls_clip st' = ls_clip st
     end).
Proof.
  intros st'; subst st'; unfold row_step', row_step.
  destruct (String.prefix "LORA_" (str_upper key)) eqn:Ep; simpl negb; cbv iota.
  2: { left; repeat split; left; reflexivity. }
  destruct v as [[on|] [lora|] [sm|] st2|];
    try (left; repeat split; left; reflexivity).
  set (f := match lora with Some f => f | None => "" end).
  destruct (String.eqb f "" || String.eqb f "None") eqn:Ef.
  { left; repeat split; left; reflexivity. }
  apply orb_false_iff in Ef; destruct Ef as [Ef1 Ef2].
  destruct on; simpl negb; cbv iota.
  2: { left; repeat split; right; exists f, None; split; [discriminate | reflexivity]. }
  set (sc := match ls_clip st with
             | None => 0%Q
             | Some _ => match st2 with Some (Some x) => x | _ => sm end
             end).
  destruct (Qeq_bool sm 0 && Qeq_bool sc 0) eqn:Ez.
  { left; repeat split; left; reflexivity. }
  destruct (full_path f) as [path|].
  2: { left; repeat split; right; exists f, (Some false); split; [discriminate | reflexivity]. }
  destruct (_check_compat _ _ _) as [compatible reason].
  destruct compatible; simpl negb; cbv iota.
  2: { left; repeat split; right; exists f, (Some false); split; [discriminate | reflexivity]. }
  right.
  destruct lora as [f'|].
  2: { exfalso; subst f; simpl in Ef1; discriminate. }
  exists f', sm, sc, st2; subst f.
  repeat split; try assumption.
  - intros E; rewrite E in Ef1; discriminate.
  - intros E; rewrite E in Ef2; discriminate.
  - intros [H1 H2]; apply Qeq_bool_iff in H1; apply Qeq_bool_iff in H2.
    rewrite H1, H2 in Ez; discriminate.
  - destruct (ls_model st) as [m|]; [destruct (load_lora m (ls_clip st) f' sm sc)|]; reflexivity.
  - destruct (ls_model st) as [m|]; [destruct (load_lora m (ls_clip st) f' sm sc)|]; reflexivity.
  - destruct (ls_model st) as [m|]; [destruct (load_lora m (ls_clip st) f' sm sc) eqn:El|];
      simpl; split; try reflexivity; rewrite El; reflexivity.
Qed.

Lemma stack_step_cases (st : loader_state M C) (e : string * Q * Q) :
  let st' := stack_step' st e in
  ls_stack st' = ls_stack st /\ ls_compat st' = ls_compat st /\
  match ls_model st with
  | None => st' = st
  | Some m => st' = st \/
      exists f sm sc, ls_model st' = Some (fst (load_lora m (ls_clip st) f sm sc)) /\
                      ls_clip st' = snd (load_lora m (ls_clip st) f sm sc)
  end.
Proof.
  intros st'; subst st'; unfold stack_step', stack_step.
  destruct e as [[f sm] sc].
  destruct (String.eqb f "" || String.eqb f "None").
  { repeat split; destruct (ls_model st); [left|]; reflexivity. }
  destruct (ls_model st) as [m|] eqn:Em; [|repeat split; exact Em].
  destruct (load_lora m (ls_clip st) f sm sc) as [m' c'] eqn:El.
  repeat split; right; exists f, sm, sc; rewrite El; split; reflexivity.
Qed.

Lemma fold_left_inv {A B : Type} (P : A -> Prop) (g : A -> B -> A) (l : list B) (a : A) :
  P a -> (forall x y, In y l -> P x -> P (g x y)) -> P (fold_left g l a).
Proof.
  revert a; induction l as [|y l IH]; intros a Ha Hs; simpl; [exact Ha|].
  apply IH; [apply Hs; [left; reflexivity | exact Ha] |].
  intros x z Hz; apply Hs; right; exact Hz.
Qed.

Lemma stack_fold_stack_compat (l : list (string * Q * Q)) (st : loader_state M C) :
  ls_stack (fold_left stack_step' l st) = ls_stack st /\
  ls_compat (fold_left stack_step' l st) = ls_compat st.
Proof.
  apply (fold_left_inv (fun x => ls_stack x = ls_stack st /\ ls_compat x = ls_compat st));
    [split; reflexivity|].
  intros x e _ [H1 H2]; destruct (stack_step_cases x e) as (E1 & E2 & _).
  rewrite E1, E2; split; assumption.
Qed.

(** the output stack is the incoming stack followed by the rows the
    loader applied, each an enabled [LORA_] row with a real file name and
    a non-zero strength. *)
Theorem load_loras_out_stack (model : option M) (clip : option C)
  (lora_stack : option (list (string * Q * Q))) (kwargs : list (string * kw_value)) :
  exists added,
    ls_stack (load_loras load_lora full_path read_keys keymap_of model clip lora_stack kwargs)
    = (match lora_stack with Some l => l | None => [] end ++ added)%list /\
    Forall (fun e : string * Q * Q =>
              let '(f, sm, sc) := e in
              f <> "" /\ f <> "None" /\ ~ (sm == 0 /\ sc == 0)%Q /\
              exists key st2,
                In (key, KwRow (Some true) (Some (Some f)) (Some sm) st2) kwargs /\
                String.prefix "LORA_" (str_upper key) = true) added.
Proof.
  unfold load_loras.
  set (incoming := match lora_stack with Some l => l | None => [] end).
  set (st1 := fold_left (stack_step load_lora) incoming (mkLoader model clip [] incoming)).
  assert (H1 : ls_stack st1 = incoming)
    by exact (proj1 (stack_fold_stack_compat incoming (mkLoader model clip [] incoming))).
  apply (fold_left_inv (fun x => exists added, ls_stack x = (incoming ++ added)%list /\ _)).
  { exists []; rewrite app_nil_r; split; [exact H1 | constructor]. }
  intros x [key v] Hin (added & Ha & Hf).
  destruct (row_step_cases x key v) as [(E & _) | (f & sm & sc & st2 & Ev & Ep & Hf1 & Hf2 & Hz & _ & E & _)];
    fold row_step'.
  - exists added; rewrite E; split; assumption.
  - exists (added ++ [(f, sm, sc)])%list; rewrite E, Ha, app_assoc; split; [reflexivity|].
    apply Forall_app; split; [exact Hf|].
    constructor; [|constructor].
    repeat split; try assumption.
    exists key, st2; rewrite <- Ev; split; assumption.
Qed.

(** with no CLIP connected, and a [load_lora] that keeps an absent CLIP
    absent, the CLIP output stays [None] and every row the loader adds to
    the stack carries a CLIP strength of [0]. *)
Theorem load_loras_no_clip (model : option M)
  (lora_stack : option (list (string * Q * Q))) (kwargs : list (string * kw_value)) :
  (forall m f sm sc, snd (load_lora m None f sm sc) = None) ->
  let st := load_loras load_lora full_path read_keys keymap_of model None lora_stack kwargs in
  ls_clip st = None /\
  exists added,
    ls_stack st = (match lora_stack with Some l => l | None => [] end ++ added)%list /\
    Forall (fun e : string * Q * Q => snd e = 0%Q) added.
Proof.
  intros Hnone st; subst st; unfold load_loras.
  set (incoming := match lora_stack with Some l => l | None => [] end).
  set (st0 := mkLoader model None [] incoming).
  set (st1 := fold_left (stack_step load_lora) incoming st0).
  assert (H1 : ls_stack st1 = incoming /\ ls_clip st1 = None).
  { split; [exact (proj1 (stack_fold_stack_compat incoming st0))|].
    apply (fold_left_inv (fun x : loader_state M C => ls_clip x = None)); [reflexivity|].
    intros x e _ Hc; destruct (stack_step_cases x e) as (_ & _ & Hm); fold stack_step'.
    destruct (ls_model x) as [m|].
    - destruct Hm as [-> | (f & sm & sc & _ & ->)]; [exact Hc|].
      rewrite Hc; apply Hnone.
    - rewrite Hm; exact Hc. }
  destruct H1 as [H1 H2].
  apply (fold_left_inv (fun x => ls_clip x = None /\
           exists added, ls_stack x = (incoming ++ added)%list /\
                         Forall (fun e : string * Q * Q => snd e = 0%Q) added)).
  { split; [exact H2|]; exists []; rewrite app_nil_r; split; [exact H1 | constructor]. }
  intros x [key v] _ (Hc & added & Ha & Hf).
  destruct (row_step_cases x key v) as [(E & _ & Ec & _) | (f & sm & sc & st2 & _ & _ & _ & _ & _ & Esc & E & _ & Hm)];
    fold row_step'.
  - split; [rewrite Ec; exact Hc|].
    exists added; rewrite E; split; assumption.
  - split.
    + destruct (ls_model x) as [m|]; destruct Hm as [_ ->]; [rewrite Hc; apply Hnone | exact Hc].
    + exists (added ++ [(f, sm, sc)])%list; rewrite E, Ha, app_assoc; split; [reflexivity|].
      apply Forall_app; split; [exact Hf|].
      constructor; [|constructor]; simpl; rewrite Esc, Hc; reflexivity.
Qed.

(** with no model connected, no LoRA is applied: the model output stays
    [None] and the CLIP output is the CLIP input. *)
Theorem load_loras_no_model (clip : option C)
  (lora_stack : option (list (string * Q * Q))) (kwargs : list (string * kw_value)) :
  let st := load_loras load_lora full_path read_keys keymap_of None clip lora_stack kwargs in
  ls_model st = None /\ ls_clip st = clip.
Proof.
  intros st; subst st; unfold load_loras.
  set (incoming := match lora_stack with Some l => l | None => [] end).
  apply (fold_left_inv (fun x : loader_state M C => ls_model x = None /\ ls_clip x = clip)).
  - apply (fold_left_inv (fun x : loader_state M C => ls_model x = None /\ ls_clip x = clip));
      [split; reflexivity|].
    intros x e _ [Hm Hc]; destruct (stack_step_cases x e) as (_ & _ & Hs);
      fold stack_step'; rewrite Hm in Hs; rewrite Hs; split; assumption.
  - intros x [key v] _ [Hm Hc].
    destruct (row_step_cases x key v) as [(_ & Em & Ec & _) | (f & sm & sc & st2 & _ & _ & _ & _ & _ & _ & _ & _ & Hs)];
      fold row_step'.
    + rewrite Em, Ec; split; assumption.
    + rewrite Hm in Hs; destruct Hs as [-> ->]; split; [reflexivity | assumption].
Qed.

(** every file the UI is told is compatible ([compat[f] = True]) is in
    the output stack. *)
Theorem load_loras_compatible_in_stack (model : option M) (clip : option C)
  (lora_stack : option (list (string * Q * Q))) (kwargs : list (string * kw_value))
  (f : string) :
  let st := load_loras load_lora full_path read_keys keymap_of model clip lora_stack kwargs in
  compat_get f (ls_compat st) = Some (Some true) ->
  exists sm sc, In (f, sm, sc) (ls_stack st).
Proof.
  intros st; subst st; unfold load_loras.
  set (incoming := match lora_stack with Some l => l | None => [] end).
  set (st0 := mkLoader model clip [] incoming).
  refine (fold_left_inv (fun x : loader_state M C => compat_get f (ls_compat x) = Some (Some true) ->
                          exists sm sc, In (f, sm, sc) (ls_stack x)) _ kwargs _ _ _).
  - fold stack_step'; rewrite (proj2 (stack_fold_stack_compat incoming st0)); simpl; discriminate.
  - intros x [key v] _ IH.
    destruct (row_step_cases x key v) as [(E & _ & _ & Ecomp) | (f' & sm & sc & st2 & _ & _ & _ & _ & _ & _ & E & Ecomp & _)];
      fold row_step'; rewrite E.
    + destruct Ecomp as [-> | (f' & o & Ho & ->)]; [exact IH|].
      rewrite compat_get_set; destruct (String.eqb f f'); [|exact IH].
      intros Eo; injection Eo as Eo; contradiction.
    + rewrite Ecomp, compat_get_set; destruct (String.eqb f f') eqn:Ef.
      * intros _; apply String.eqb_eq in Ef; subst f'; exists sm, sc.
        apply in_app_iff; right; left; reflexivity.
      * intros H; destruct (IH H) as (sm' & sc' & Hi); exists sm', sc'.
        apply in_app_iff; left; exact Hi.
Qed.

End LoadLorasFacts.

Lemma lora_suffixes_free : suffix_free LORA_SUFFIXES = true.
Proof. vm_compute; reflexivity. Qed.

Lemma filter_length_zero {A : Type} (p : A -> bool) (l : list A) :
  List.length (filter p l) = 0%nat <-> Forall (fun x => p x = false) l.
Proof.
  induction l as [|x l IH]; simpl.
  - split; constructor || reflexivity.
  - destruct (p x) eqn:E; simpl.
    + split; [discriminate | intros H; inversion H; congruence].
    + rewrite IH; split; [intros H; constructor; assumption | intros H; inversion H; assumption].
Qed.

Lemma existsb_eqb_false (b : string) (l : list string) :
  existsb (String.eqb b) l = false <-> ~ In b l.
Proof.
  split.
  - intros E Hin; assert (existsb (String.eqb b) l = true) as E'
      by (apply existsb_exists; exists b; split; [exact Hin | apply String.eqb_refl]).
    congruence.
  - intros Hn; destruct (existsb (String.eqb b) l) eqn:E; [|reflexivity].
    apply existsb_exists in E; destruct E as (x & Hx & Ex).
    apply String.eqb_eq in Ex; subst x; contradiction.
Qed.

(** a base key is a LoRA key with one of [_LORA_SUFFIXES] stripped: [b]
    is in [base_keys] exactly when [b ++ sfx] is a LoRA key for some
    suffix [sfx], whichever suffix the loop meets first; and [base_keys]
    holds no duplicate. *)
Theorem base_keys_spec (ks : list string) (b : string) :
  (In b (base_keys ks) <->
   exists k sfx, In k ks /\ In sfx LORA_SUFFIXES /\ k = (b ++ sfx)%string) /\
  NoDup (base_keys ks).
Proof.
  split.
  - unfold base_keys; rewrite base_keys_gen; split.
    + intros [[] | (k & Hk & Eb)].
      apply (base_of_spec _ _ _ lora_suffixes_free) in Eb.
      destruct Eb as (sfx & Hs & Ek); exists k, sfx; tauto.
    + intros (k & sfx & Hk & Hs & Ek); right; exists k; split; [exact Hk|].
      apply (base_of_spec _ _ _ lora_suffixes_free); exists sfx; tauto.
  - apply base_keys_nodup_gen; constructor.
Qed.

(** [_check_compat] rejects a LoRA only when a model is connected, the
    LoRA's keys were read and are not empty, the model's key map was built,
    the LoRA has at least one base key, and none of its base keys is in the
    model's key map; in every other case it lets the LoRA through. *)
Theorem check_compat_rejects (model_present : bool) (lora_keys : option (list string))
  (model_map : res (list string)) :
  fst (_check_compat model_present lora_keys model_map) = false <->
  model_present = true /\
  exists ks mm, lora_keys = Some ks /\ ks <> [] /\ model_map = Ok mm /\
                base_keys ks <> [] /\ Forall (fun b => ~ In b mm) (base_keys ks).
Proof.
  unfold _check_compat; destruct model_present; simpl negb; cbv iota.
  2: { split; [discriminate | intros [H _]; discriminate]. }
  destruct lora_keys as [[|k ks]|].
  3: { split; [discriminate | intros (_ & ks & mm & H & _); discriminate]. }
  { split; [discriminate | intros (_ & ks & mm & H & Hne & _); injection H as <-; contradiction]. }
  destruct model_map as [mm|e].
  2: { split; [discriminate | intros (_ & ks' & mm & _ & _ & H & _); discriminate]. }
  destruct (base_keys (k :: ks)) as [|b bs] eqn:Eb.
  { split; [discriminate | intros (_ & ks' & mm' & H & _ & _ & Hb & _)].
    injection H as <-; contradiction. }
  cbn [fst]; split.
  - intros H; split; [reflexivity|]; exists (k :: ks), mm.
    rewrite Eb; repeat split; try discriminate.
    apply Nat.ltb_ge, Nat.le_0_r in H.
    apply filter_length_zero in H.
    eapply Forall_impl; [|exact H]; intros x Hx; apply existsb_eqb_false; exact Hx.
  - intros (_ & ks' & mm' & H1 & _ & H2 & _ & Hf).
    injection H1 as <-; injection H2 as <-; rewrite Eb in Hf.
    apply Nat.ltb_ge; apply Nat.le_0_r; apply filter_length_zero.
    eapply Forall_impl; [|exact Hf]; intros x Hx; apply existsb_eqb_false; exact Hx.
Qed.

(** when [_check_compat] reports ["{matches}/{total} keys matched"],
    [0 < total], [matches <= total], and the verdict is [matches > 0]. *)
Theorem check_compat_matched (model_present : bool) (lora_keys : option (list string))
  (model_map : res (list string)) (matches total : nat) :
  snd (_check_compat model_present lora_keys model_map) = RMatched matches total ->
  (0 < total)%nat /\ (matches <= total)%nat /\
  fst (_check_compat model_present lora_keys model_map) = Nat.ltb 0 matches.
Proof.
  unfold _check_compat; destruct model_present; simpl negb; cbv iota; [|discriminate].
  destruct lora_keys as [[|k ks]|]; try discriminate.
  destruct model_map as [mm|e]; [|discriminate].
  destruct (base_keys (k :: ks)) as [|b bs]; [discriminate|].
  cbn [fst snd]; intros H; injection H as <- <-.
  split; [simpl; lia|]; split; [exact (filter_length_le _ (b :: bs)) | reflexivity].
Qed.

Lemma load_loras_no_clip_witness :
  (forall m f sm sc, snd (demo_load_lora m None f sm sc) = None) /\
  (let st := load_loras demo_load_lora demo_full_path demo_read_keys demo_keymap
               (Some 0%nat) None (Some [("base.safetensors", 1%Q, 1%Q)]) demo_rows in
   ls_clip st = None /\
   exists added,
     ls_stack st = ([("base.safetensors", 1%Q, 1%Q)] ++ added)%list /\
     Forall (fun e : string * Q * Q => snd e = 0%Q) added).
Proof.
  assert (H : forall m f sm sc, snd (demo_load_lora m None f sm sc) = None)
    by (intros; reflexivity).
  split; [exact H|].
  exact (load_loras_no_clip nat nat demo_load_lora demo_full_path demo_read_keys demo_keymap
           (Some 0%nat) (Some [("base.safetensors", 1%Q, 1%Q)]) demo_rows H).
Defined.

Lemma load_loras_compatible_in_stack_witness :
  let st := load_loras demo_load_lora demo_full_path demo_read_keys demo_keymap
              (Some 0%nat) (Some 0%nat) None demo_rows in
  compat_get "style.safetensors" (ls_compat st) = Some (Some true) /\
  exists sm sc, In ("style.safetensors", sm, sc) (ls_stack st).
Proof.
  intros st.
  assert (H : compat_get "style.safetensors" (ls_compat st) = Some (Some true))
    by (vm_compute; reflexivity).
  split; [exact H|].
  exact (load_loras_compatible_in_stack nat nat demo_load_lora demo_full_path demo_read_keys
           demo_keymap (Some 0%nat) (Some 0%nat) None demo_rows "style.safetensors" H).
Defined.

Lemma check_compat_matched_witness :
  snd (_check_compat true (Some demo_keys) (Ok ["blocks.0.attn"; "blocks.1.attn"])) = RMatched 1 1 /\
  ((0 < 1)%nat /\ (1 <= 1)%nat /\
   fst (_check_compat true (Some demo_keys) (Ok ["blocks.0.attn"; "blocks.1.attn"])) = Nat.ltb 0 1).
Proof.
  assert (H : snd (_check_compat true (Some demo_keys) (Ok ["blocks.0.attn"; "blocks.1.attn"]))
              = RMatched 1 1) by (vm_compute; reflexivity).
  split; [exact H|].
  exact (check_compat_matched true (Some demo_keys) (Ok ["blocks.0.attn"; "blocks.1.attn"]) 1 1 H).
Defined.
